(** * Authority connectors of tei-publisher-components

    A shallow embedding of the reconciliation-service connector
    (class [ReconciliationService]), of the composite connector
    (class [Custom], src/authority/custom.js) and of the Metagrid connector
    (class [Metagrid]), with the properties of query building, response
    normalisation, version negotiation and multi-source composition proved
    about them.

    Conventions of the embedding
    - A JavaScript string is a [string]: a sequence of code units, each below
      256 ([String.length] is [.length], dropping [n] characters is
      [.substring(n)]).
    - A promise is modelled by how it ends: [Fulfilled], [Rejected] or
      [Pending] (never settled).
    - Code that talks to the outside world runs in the monad [M]: it threads
      the display container's [innerHTML] and a log of the calls made, and
      stops at the first promise that does not fulfil. *)

From Stdlib Require Import String Ascii List ZArith NArith Lia Bool DecimalString.
From stdpp Require Import base option list gmap strings.
Import ListNotations.

Set Warnings "-register-all".

Local Open Scope string_scope.
Local Open Scope list_scope.

(** ** JavaScript strings *)

Module JsString.

(** [s.substring(n)]: the string without its first [n] code units. *)
Fixpoint substring_from (n : nat) (s : string) : string :=
  match n, s with
  | O, _ => s
  | S _, EmptyString => EmptyString
  | S n', String _ s' => substring_from n' s'
  end.

(** [a.join(sep)] on an array of strings. *)
Fixpoint join (sep : string) (parts : list string) : string :=
  match parts with
  | [] => ""
  | [p] => p
  | p :: rest => p +:+ sep +:+ join sep rest
  end.

(** [s.startsWith(p)]. *)
Fixpoint starts_with (p s : string) : bool :=
  match p, s with
  | EmptyString, _ => true
  | String a p', String b s' => if Ascii.eqb a b then starts_with p' s' else false
  | String _ _, EmptyString => false
  end.

(** [s.includes(p)]. *)
Fixpoint includes (p s : string) : bool :=
  starts_with p s ||
  match s with
  | EmptyString => false
  | String _ s' => includes p s'
  end.

(** [s.split(sep)] for a one-character separator: the pieces between the
    separators, always at least one. *)
Fixpoint split_on (sep : ascii) (s : string) : list string :=
  match s with
  | EmptyString => [""]
  | String c s' =>
      if Ascii.eqb c sep then "" :: split_on sep s'
      else match split_on sep s' with
           | [] => [String c ""]
           | p :: ps => String c p :: ps
           end
  end.

(** What a template literal prints for [parts[i]]: the piece, or the word
    [undefined] when the array has no such index. *)
Definition template_of_index (parts : list string) (i : nat) : string :=
  match nth_error parts i with
  | Some p => p
  | None => "undefined"
  end.

(** The substitution [String.prototype.replace] makes for a string pattern:
    in the replacement text, [$$] is a dollar sign, [$&] the matched text,
    [$`] what precedes the match and [$'] what follows it; every other
    character, a lone dollar sign included, stands for itself. *)
Fixpoint get_substitution (matched before after repl : string) : string :=
  match repl with
  | EmptyString => ""
  | String "$" (String "$" r) => "$" +:+ get_substitution matched before after r
  | String "$" (String "&" r) => matched +:+ get_substitution matched before after r
  | String "$" (String "`" r) => before +:+ get_substitution matched before after r
  | String "$" (String "'" r) => after +:+ get_substitution matched before after r
  | String c r => String c (get_substitution matched before after r)
  end.

(** [s.replace(pat, repl)] for a string pattern: the first occurrence only;
    [before] is what was read before the current position. *)
Fixpoint replace_from (pat repl : string) (before : string) (s : string) : string :=
  if starts_with pat s then
    before +:+ get_substitution pat before (substring_from (String.length pat) s) repl
           +:+ substring_from (String.length pat) s
  else match s with
       | EmptyString => before
       | String c s' => replace_from pat repl (before +:+ String c "") s'
       end.

Definition replace (pat repl s : string) : string := replace_from pat repl "" s.

(** JavaScript truthiness of a string. *)
Definition truthy (s : string) : bool := negb (String.eqb s "").

(** Truthiness of an attribute read with [getAttribute]: [null] when the
    attribute is absent, else its text. *)
Definition truthy_attr (a : option string) : bool :=
  match a with
  | Some s => truthy s
  | None => false
  end.

Definition hex_digit (upper : bool) (n : N) : ascii :=
  if (n <? 10)%N then ascii_of_N (48 + n)
  else ascii_of_N ((if upper then 55 else 87) + n).

Definition hex2 (upper : bool) (n : N) : string :=
  String (hex_digit upper (n / 16)) (String (hex_digit upper (n mod 16)) "").

(** The characters [encodeURIComponent] leaves alone:
    letters, digits and [- _ . ! ~ * ' ( )]. *)
Definition uri_unreserved (c : ascii) : bool :=
  let n := N_of_ascii c in
  ((65 <=? n) && (n <=? 90) || (97 <=? n) && (n <=? 122) || (48 <=? n) && (n <=? 57))%N
  || existsb (Ascii.eqb c) ["-"; "_"; "."; "!"; "~"; "*"; "'"; "("; ")"]%char.

(** [encodeURIComponent]: every other code unit is written as the
    percent-escaped bytes of its UTF-8 form (one byte below 128, two from
    128 to 255). The strings of this development hold code units below 256;
    an unpaired surrogate, the one input on which the function throws a
    [URIError], is not among them. *)
Fixpoint encodeURIComponent (s : string) : string :=
  match s with
  | EmptyString => ""
  | String c s' =>
      let n := N_of_ascii c in
      (if uri_unreserved c then String c ""
       else if (n <? 128)%N then "%" +:+ hex2 true n
       else "%" +:+ hex2 true (192 + n / 64) +:+ "%" +:+ hex2 true (128 + n mod 64))
      +:+ encodeURIComponent s'
  end.

(** Decimal digits of an integer, as [Number.prototype.toString] prints
    one. *)
Definition of_Z (z : Z) : string := NilZero.string_of_int (Z.to_int z).

End JsString.

(** ** JavaScript values

    The values that cross the connectors untyped: query objects, raw
    records, descriptors. Numbers are the integers. *)

Inductive value : Type :=
| VUndefined
| VNull
| VBool (b : bool)
| VNum (n : Z)
| VStr (s : string)
| VArr (xs : list value)
| VObj (fields : list (string * value)).

Module Js.

(** ToBoolean. *)
Definition truthy (v : value) : bool :=
  match v with
  | VUndefined | VNull => false
  | VBool b => b
  | VNum n => negb (n =? 0)%Z
  | VStr s => JsString.truthy s
  | VArr _ | VObj _ => true
  end.

(** What is thrown or given as the reason of a rejection: an [Error] object
    with its name and message, or nothing at all ([reject()]). *)
Inductive reason : Type :=
| JsError (name message : string)
| NoReason.

(** The result of evaluating an expression that may throw. *)
Inductive result (A : Type) : Type :=
| Ok (a : A)
| Throw (r : reason).
Arguments Ok {A} a.
Arguments Throw {A} r.

Definition type_error (msg : string) : reason := JsError "TypeError" msg.

(** A property key: a name or an array index. *)
Inductive key : Type :=
| Name (s : string)
| Index (i : nat).

Definition assoc (k : string) (fields : list (string * value)) : value :=
  match List.find (fun kv => String.eqb (fst kv) k) fields with
  | Some kv => snd kv
  | None => VUndefined
  end.

(** Reading [v[k]]. Reading a property of [undefined] or [null] throws a
    [TypeError]; a primitive has none of the properties read here (apart
    from the characters and the length of a string), so the read gives
    [undefined]. *)
Definition get (v : value) (k : key) : result value :=
  match v with
  | VUndefined => Throw (type_error "Cannot read properties of undefined")
  | VNull => Throw (type_error "Cannot read properties of null")
  | VBool _ | VNum _ => Ok VUndefined
  | VStr s =>
      match k with
      | Name "length" => Ok (VNum (Z.of_nat (String.length s)))
      | Name _ => Ok VUndefined
      | Index i => Ok (match String.get i s with
                       | Some c => VStr (String c "")
                       | None => VUndefined
                       end)
      end
  | VArr xs =>
      match k with
      | Name "length" => Ok (VNum (Z.of_nat (List.length xs)))
      | Name _ => Ok VUndefined
      | Index i => Ok (nth i xs VUndefined)
      end
  | VObj fields =>
      match k with
      | Name s => Ok (assoc s fields)
      | Index _ => Ok VUndefined
      end
  end.

Fixpoint set_field (k : string) (x : value) (fields : list (string * value))
  : list (string * value) :=
  match fields with
  | [] => [(k, x)]
  | (k', v) :: rest =>
      if String.eqb k' k then (k', x) :: rest else (k', v) :: set_field k x rest
  end.

(** The assignment [v.p1.p2...pn = x], as a new value for [v]: the path
    is read first, left to right, and the last property is written. Module
    code is strict, so writing a property of a primitive throws. *)
Fixpoint assign (v : value) (path : list key) (x : value) : result value :=
  match path with
  | [] => Ok x
  | [k] =>
      match v, k with
      | VObj fields, Name s => Ok (VObj (set_field s x fields))
      | VArr xs, Index i => Ok (VArr (<[i := x]> xs))
      | VUndefined, _ => Throw (type_error "Cannot set properties of undefined")
      | VNull, _ => Throw (type_error "Cannot set properties of null")
      | _, _ => Throw (type_error "Cannot create property")
      end
  | k :: rest =>
      match get v k with
      | Throw r => Throw r
      | Ok child =>
          match assign child rest x with
          | Throw r => Throw r
          | Ok child' =>
              match v, k with
              | VObj fields, Name s => Ok (VObj (set_field s child' fields))
              | VArr xs, Index i => Ok (VArr (<[i := child']> xs))
              | _, _ => Ok v
              end
          end
      end
  end.

(** The double quote character. *)
Definition dquote : ascii := "034"%char.

(** The escapes of [JSON.stringify] inside a string literal. *)
Definition escape_char (c : ascii) : string :=
  let n := N_of_ascii c in
  if Ascii.eqb c dquote then String "\" (String dquote "")
  else if Ascii.eqb c "\" then "\\"
  else if (n =? 8)%N then "\b"
  else if (n =? 9)%N then "\t"
  else if (n =? 10)%N then "\n"
  else if (n =? 12)%N then "\f"
  else if (n =? 13)%N then "\r"
  else if (n <? 32)%N then "\u00" +:+ JsString.hex2 false n
  else String c "".

Fixpoint escape (s : string) : string :=
  match s with
  | EmptyString => ""
  | String c s' => escape_char c +:+ escape s'
  end.

Definition quote (s : string) : string :=
  String dquote (escape s) +:+ String dquote "".

(** [JSON.stringify(v)]; [None] is its [undefined] result. An object leaves
    out the properties whose value is [undefined]; an array prints them as
    [null]. *)
Fixpoint JSON_stringify (v : value) : option string :=
  match v with
  | VUndefined => None
  | VNull => Some "null"
  | VBool b => Some (if b then "true" else "false")
  | VNum n => Some (JsString.of_Z n)
  | VStr s => Some (quote s)
  | VArr xs =>
      Some ("[" +:+ JsString.join ","
              (List.map (fun x => match JSON_stringify x with
                                  | Some s => s
                                  | None => "null"
                                  end) xs) +:+ "]")
  | VObj fields =>
      Some ("{" +:+ JsString.join ","
              ((fix props (fs : list (string * value)) : list string :=
                  match fs with
                  | [] => []
                  | (k, x) :: rest =>
                      match JSON_stringify x with
                      | Some s => (quote k +:+ ":" +:+ s) :: props rest
                      | None => props rest
                      end
                  end) fields) +:+ "}")
  end.

End Js.

(** ** Regular expressions

    The version grammar of the semver library is given by regular
    expressions; they are kept as data and run by a backtracking matcher with
    JavaScript's priorities: the left alternative first, as many repetitions
    as possible first, and a repetition that consumes nothing is refused. *)

Module Regex.

Inductive re : Type :=
| Eps
| Chr (p : ascii -> bool)
| Cat (r1 r2 : re)
| Alt (r1 r2 : re)
| Star (r : re)
| Group (n : nat) (r : re).

Definition Plus (r : re) : re := Cat r (Star r).
Definition Opt (r : re) : re := Alt r Eps.

Definition captures : Type := list (nat * string).

(** What was read between the input [s] and its suffix [rest]. *)
Definition consumed (s rest : list ascii) : string :=
  string_of_list_ascii (firstn (List.length s - List.length rest) s).

Fixpoint run (r : re) (s : list ascii) (caps : captures)
    (k : list ascii -> captures -> option captures) {struct r} : option captures :=
  match r with
  | Eps => k s caps
  | Chr p =>
      match s with
      | c :: s' => if p c then k s' caps else None
      | [] => None
      end
  | Cat r1 r2 => run r1 s caps (fun s' caps' => run r2 s' caps' k)
  | Alt r1 r2 =>
      match run r1 s caps k with
      | Some c => Some c
      | None => run r2 s caps k
      end
  | Star r1 =>
      (fix star (fuel : nat) (s : list ascii) (caps : captures) : option captures :=
         match fuel with
         | O => k s caps
         | S fuel' =>
             match run r1 s caps
                     (fun s' caps' =>
                        if (List.length s' <? List.length s)%nat
                        then star fuel' s' caps' else None) with
             | Some c => Some c
             | None => k s caps
             end
         end) (List.length s) s caps
  | Group n r1 => run r1 s caps (fun s' caps' => k s' ((n, consumed s s') :: caps'))
  end.

(** [s.match(/^r$/)]: the captures of the first way [r] reads all of [s]. *)
Definition match_all (r : re) (s : string) : option captures :=
  run r (list_ascii_of_string s) []
      (fun rest caps => match rest with [] => Some caps | _ => None end).

(** Capture group [n]; [None] when the group took no part in the match. *)
Definition group (n : nat) (caps : captures) : option string :=
  snd <$> List.find (fun c => Nat.eqb (fst c) n) caps.

Definition in_range (lo hi : N) (c : ascii) : bool :=
  ((lo <=? N_of_ascii c) && (N_of_ascii c <=? hi))%N.

Definition digit : ascii -> bool := in_range 48 57.
Definition letter (c : ascii) : bool := in_range 65 90 c || in_range 97 122 c.
Definition char (a : ascii) (c : ascii) : bool := Ascii.eqb a c.

(** [\s] among the code units below 256: tab, line feed, vertical tab, form
    feed, carriage return, space and no-break space. *)
Definition space (c : ascii) : bool :=
  in_range 9 13 c || (N_of_ascii c =? 32)%N || (N_of_ascii c =? 160)%N.

End Regex.

(** ** The semver library

    [valid] and [maxSatisfying] come from the package [es-semver], which is
    not part of the repository. They are modelled here as the package
    defines them for the options the connector passes,
    [{loose: true, includePrerelease: true}]: the loose version grammar, the
    precedence order of versions, and the range [<0.3.1]. Numeric
    identifiers are compared as natural numbers, and a version of the list
    that does not parse is passed over, as in node-semver, which the package
    ports. *)

Module Semver.
Import Regex.

Definition dot : re := Chr (char ".").
Definition dash (c : ascii) : bool := char "-" c.

Definition NUMERICIDENTIFIERLOOSE : re := Plus (Chr digit).

Definition NONNUMERICIDENTIFIER : re :=
  Cat (Star (Chr digit))
      (Cat (Chr (fun c => letter c || dash c))
           (Star (Chr (fun c => letter c || digit c || dash c)))).

Definition MAINVERSIONLOOSE : re :=
  Cat (Group 1 NUMERICIDENTIFIERLOOSE)
      (Cat dot (Cat (Group 2 NUMERICIDENTIFIERLOOSE)
                    (Cat dot (Group 3 NUMERICIDENTIFIERLOOSE)))).

Definition PRERELEASEIDENTIFIERLOOSE : re :=
  Alt NUMERICIDENTIFIERLOOSE NONNUMERICIDENTIFIER.

Definition PRERELEASELOOSE : re :=
  Cat (Opt (Chr dash))
      (Group 4 (Cat PRERELEASEIDENTIFIERLOOSE
                    (Star (Cat dot PRERELEASEIDENTIFIERLOOSE)))).

Definition BUILDIDENTIFIER : re :=
  Plus (Chr (fun c => digit c || letter c || dash c)).

Definition BUILD : re :=
  Cat (Chr (char "+"))
      (Group 5 (Cat BUILDIDENTIFIER (Star (Cat dot BUILDIDENTIFIER)))).

Definition LOOSE : re :=
  Cat (Star (Chr (fun c => char "v" c || char "=" c || space c)))
      (Cat MAINVERSIONLOOSE (Cat (Opt PRERELEASELOOSE) (Opt BUILD))).

Definition MAX_LENGTH : nat := 256.
Definition MAX_SAFE_INTEGER : N := 9007199254740991.

(** A pre-release identifier: a number, or text. *)
Inductive ident : Type :=
| IdNum (n : N)
| IdStr (s : string).

Record SemVer : Type := {
  major : N;
  minor : N;
  patch : N;
  prerelease : list ident
}.

(** The number a string of decimal digits writes. *)
Definition number_of (s : string) : N :=
  fold_left (fun acc c => (10 * acc + (N_of_ascii c - 48))%N)
            (list_ascii_of_string s) 0%N.

Definition all_digits (s : string) : bool :=
  JsString.truthy s && forallb digit (list_ascii_of_string s).

Fixpoint drop_spaces (s : list ascii) : list ascii :=
  match s with
  | c :: s' => if space c then drop_spaces s' else s
  | [] => []
  end.

(** [s.trim()]. *)
Definition trim (s : string) : string :=
  string_of_list_ascii
    (rev (drop_spaces (rev (drop_spaces (list_ascii_of_string s))))).

Definition ident_of (id : string) : ident :=
  if all_digits id && (number_of id <? MAX_SAFE_INTEGER)%N
  then IdNum (number_of id) else IdStr id.

Definition captured (n : nat) (m : captures) : string :=
  match group n m with
  | Some s => s
  | None => ""
  end.

(** [new SemVer(version, options)]; [None] when the constructor throws. *)
Definition new_SemVer (version : string) : option SemVer :=
  if (MAX_LENGTH <? String.length version)%nat then None
  else
    match match_all LOOSE (trim version) with
    | None => None
    | Some m =>
        let ma := number_of (captured 1 m) in
        let mi := number_of (captured 2 m) in
        let pa := number_of (captured 3 m) in
        if ((MAX_SAFE_INTEGER <? ma) || (MAX_SAFE_INTEGER <? mi)
            || (MAX_SAFE_INTEGER <? pa))%N then None
        else
          Some {| major := ma; minor := mi; patch := pa;
                  prerelease :=
                    match group 4 m with
                    | Some p => List.map ident_of (JsString.split_on "." p)
                    | None => []
                    end |}
    end.

(** [parse(version, options)]: the grammar is tested on the text as given,
    then the version is built. *)
Definition parse (version : string) : option SemVer :=
  if (MAX_LENGTH <? String.length version)%nat then None
  else
    match match_all LOOSE version with
    | None => None
    | Some _ => new_SemVer version
    end.

(** Whether [valid(v, options)] is truthy. *)
Definition valid (v : string) : bool :=
  match parse v with
  | Some _ => true
  | None => false
  end.

Definition ident_numeric (i : ident) : bool :=
  match i with
  | IdNum _ => true
  | IdStr s => all_digits s
  end.

Definition ident_number (i : ident) : N :=
  match i with
  | IdNum n => n
  | IdStr s => number_of s
  end.

Definition ident_text (i : ident) : string :=
  match i with
  | IdNum n => JsString.of_Z (Z.of_N n)
  | IdStr s => s
  end.

Definition compareIdentifiers (a b : ident) : comparison :=
  match ident_numeric a, ident_numeric b with
  | true, true => N.compare (ident_number a) (ident_number b)
  | true, false => Lt
  | false, true => Gt
  | false, false => String.compare (ident_text a) (ident_text b)
  end.

Definition ident_same (a b : ident) : bool :=
  match a, b with
  | IdNum x, IdNum y => (x =? y)%N
  | IdStr x, IdStr y => String.eqb x y
  | _, _ => false
  end.

(** The loop of [comparePre] over the two identifier lists. *)
Fixpoint comparePre_loop (a b : list ident) : comparison :=
  match a, b with
  | [], [] => Eq
  | _ :: _, [] => Gt
  | [], _ :: _ => Lt
  | x :: a', y :: b' =>
      if ident_same x y then comparePre_loop a' b' else compareIdentifiers x y
  end.

Definition comparePre (a b : SemVer) : comparison :=
  match prerelease a, prerelease b with
  | _ :: _, [] => Lt
  | [], _ :: _ => Gt
  | [], [] => Eq
  | pa, pb => comparePre_loop pa pb
  end.

Definition compareMain (a b : SemVer) : comparison :=
  match N.compare (major a) (major b) with
  | Eq => match N.compare (minor a) (minor b) with
          | Eq => N.compare (patch a) (patch b)
          | c => c
          end
  | c => c
  end.

Definition compare (a b : SemVer) : comparison :=
  match compareMain a b with
  | Eq => comparePre a b
  | c => c
  end.

(** The test of the range [<bound] with pre-releases included. *)
Definition range_lt (bound : SemVer) (v : string) : bool :=
  match new_SemVer v with
  | Some sv => match compare sv bound with Lt => true | _ => false end
  | None => false
  end.

(** One step of [maxSatisfying]'s loop: [v] replaces the best version so far
    when it passes the range and is greater. *)
Definition max_step (test : string -> bool) (max : option string) (v : string)
  : option string :=
  if test v then
    match max with
    | None => Some v
    | Some m =>
        match new_SemVer m, new_SemVer v with
        | Some msv, Some vsv =>
            match compare msv vsv with Lt => Some v | _ => max end
        | _, _ => max
        end
    end
  else max.

(** [maxSatisfying(versions, range, options)]; [None] is its [null]. *)
Definition maxSatisfying (test : string -> bool) (versions : list string)
  : option string :=
  fold_left (max_step test) versions None.

Definition v0_3_1 : SemVer :=
  {| major := 0; minor := 3; patch := 1; prerelease := [] |}.

(** [maxSatisfying(versions, '<0.3.1', {loose, includePrerelease})]. *)
Definition maxSatisfying_lt_0_3_1 : list string -> option string :=
  maxSatisfying (range_lt v0_3_1).

End Semver.

(** ** Promises and effects *)

(** How a promise ends. *)
Inductive settled (A : Type) : Type :=
| Fulfilled (a : A)
| Rejected (r : Js.reason)
| Pending.
Arguments Fulfilled {A} a.
Arguments Rejected {A} r.
Arguments Pending {A}.

(** The second argument of [fetch]. *)
Record RequestInit : Type := {
  method : string;
  mode : option string;
  credentials : option string;
  headers : list (string * string);
  body : value
}.

(** What the code under study does to the outside world, in order. The
    children of a composite connector are numbered from 0 in configured
    order. *)
Inductive Event : Type :=
| EvFetch (url : string) (init : option RequestInit)
| EvQuery (child : nat) (key : string)
| EvInfo (child : nat) (key : string)
| EvGetRecord (child : nat) (key : string).

(** The display container and the log of calls. *)
Record World : Type := {
  innerHTML : string;
  calls : list Event
}.

(** A computation over a state [Σ] that ends like a promise: when a step
    does not fulfil, the steps after it do not run. *)
Definition M (Σ A : Type) : Type := Σ -> Σ * settled A.

#[global] Instance M_ret {Σ} : MRet (M Σ) := fun A a w => (w, Fulfilled a).

#[global] Instance M_bind {Σ} : MBind (M Σ) := fun A B f m w =>
  match m w with
  | (w', Fulfilled a) => f a w'
  | (w', Rejected r) => (w', Rejected r)
  | (w', Pending) => (w', Pending)
  end.

(** [await p] for a promise that has already been started. *)
Definition await {Σ A} (p : settled A) : M Σ A := fun w => (w, p).

(** [throw r], or [return Promise.reject(r)] in an async function. *)
Definition throw {Σ A} (r : Js.reason) : M Σ A := fun w => (w, Rejected r).

(** An expression that may throw, evaluated inside a computation. *)
Definition eval {Σ A} (e : Js.result A) : M Σ A :=
  match e with
  | Js.Ok a => mret a
  | Js.Throw r => throw r
  end.

(** [try { m } catch (e) { h }] and [m.catch(e => h)]. *)
Definition try_catch {Σ A} (m : M Σ A) (h : Js.reason -> M Σ A) : M Σ A := fun w =>
  match m w with
  | (w', Rejected r) => h r w'
  | other => other
  end.

Definition log (e : Event) : M World unit := fun w =>
  ({| innerHTML := innerHTML w; calls := calls w ++ [e] |}, Fulfilled tt).

(** [container.innerHTML = html]. *)
Definition set_innerHTML (html : string) : M World unit := fun w =>
  ({| innerHTML := html; calls := calls w |}, Fulfilled tt).

(** *** [new Promise(executor)]

    The executor runs over the world and the fate of the promise it is
    building. The first call of [resolve] or [reject] decides the fate; later
    calls change nothing; a promise whose executor never calls either stays
    pending, whatever becomes of the executor itself. *)
Record Exec (R : Type) : Type := {
  world : World;
  fate : option (settled R)
}.
Arguments world {R} e.
Arguments fate {R} e.

Definition settle {R} (out : settled R) : M (Exec R) unit := fun e =>
  ({| world := world e;
      fate := match fate e with
              | Some f => Some f
              | None => Some out
              end |}, Fulfilled tt).

Definition resolve {R} (v : R) : M (Exec R) unit := settle (Fulfilled v).
Definition reject {R} (r : Js.reason) : M (Exec R) unit := settle (Rejected r).

(** A computation on the world, run inside an executor. *)
Definition lift {R A} (m : M World A) : M (Exec R) A := fun e =>
  let (w', out) := m (world e) in
  ({| world := w'; fate := fate e |}, out).

Definition new_Promise {R} (executor : M (Exec R) unit) : M World R := fun w =>
  let (e, _) := executor {| world := w; fate := None |} in
  (world e, match fate e with
            | Some out => out
            | None => Pending
            end).

(** *** The transport *)

(** One entry of a [type] list of the reconciliation API. *)
Record TypeEntry : Type := {
  te_id : option string;
  te_name : option string
}.

(** A candidate of a reconciliation answer, with the properties the connector
    reads; [None] is a property that is absent. *)
Record Candidate : Type := {
  item_id : string;
  item_name : string;
  item_description : option string;
  item_type : option (list TypeEntry);
  item_score : option Z
}.

(** A template of the manifest: [{url: ...}], the url a string. *)
Record Template : Type := { url : string }.

(** The manifest of a reconciliation service. *)
Record Manifest : Type := {
  versions : option (list string);
  preview : option Template;
  view : option Template
}.

(** An entry of the local register, as its search and its lookup give it. *)
Record LocalItem : Type := {
  local_id : string;
  local_label : string;
  local_link : string;
  local_details : string;
  local_strings : value
}.

(** The JSON documents the connectors read, by shape:
    - [Batch rs]: an array whose elements carry a [result] list (the answer to
      a query in the newest protocol variant); an element without [result]
      is [None];
    - [Legacy q0]: an object, with the [result] list under [q0] when both are
      there;
    - [Found items]: the array a search in the local register answers, its
      elements entries with their properties as strings;
    - [Entry e]: one entry of the local register;
    - [Raw v]: anything else; a document of one of the shapes above is given
      by its constructor. *)
Inductive Payload : Type :=
| Batch (rs : list (option (list Candidate)))
| Legacy (q0 : option (option (list Candidate)))
| Found (items : list LocalItem)
| Entry (e : LocalItem)
| Raw (v : value).

(** A [Response]: [ok], [status], and how [text()] and [json()] end. *)
Record Response : Type := {
  ok : bool;
  status : Z;
  text : settled string;
  json : settled Payload
}.

(** The network: how [fetch(url, init)] ends. *)
Definition Network : Type := string -> option RequestInit -> settled Response.

Definition fetch (net : Network) (u : string) (init : option RequestInit)
  : M World Response :=
  log (EvFetch u init) ;; await (net u init).

(** ** Result records *)

(** The [type] property of a result record: absent, the whole type list of
    the candidate, or the name of its first type. *)
Inductive RType : Type :=
| TypeAbsent
| TypeList (ts : list TypeEntry)
| TypeName (n : string).

Module Result.

Record ResultRecord : Type := {
  register : string;
  id : string;
  label : string;
  type : RType;
  details : string;
  score : option Z;
  link : string;
  provider : string
}.

(** What [query] gives: [{totalItems, items}]. *)
Record ResultSet : Type := {
  totalItems : Z;
  items : list ResultRecord
}.

End Result.

Abbreviation ResultRecord := Result.ResultRecord.
Abbreviation ResultSet := Result.ResultSet.

(** ** The reconciliation connector (class [ReconciliationService]) *)

Module Reconciliation.

(** The protocol version with the newest wire format. *)
Definition NEWEST : string := "0.3.0-alpha".

(** [version === '0.3.0-alpha']; a version that is [null] or [undefined] is
    [None]. *)
Definition is_newest (version : option string) : bool :=
  match version with
  | Some v => String.eqb v NEWEST
  | None => false
  end.

(** The connector: what the constructor reads from its configuration
    element ([_register] and [_prefix] by the base class [Registry]) and
    what the manifest brings once it has arrived. *)
Record Service : Type := {
  _register : string;
  _prefix : option string;
  endpoint : string;
  processLang : option string;
  acceptLang : option string;
  ReconcConfig : option Manifest;
  reconcVersion : option string
}.

(** *** The constructor: manifest and version negotiation *)

Section Negotiation.

(** [valid(v, {loose, includePrerelease})] is truthy. *)
Variable valid : string -> bool.
(** [maxSatisfying(vs, '<0.3.1', {loose, includePrerelease})]. *)
Variable maxSatisfying : list string -> option string.

(** The function mapped over the advertised versions. *)
Definition normalizeVersion (v : string) : string :=
  if negb (valid v) && valid (v +:+ ".0") then v +:+ ".0"
  else
    let parts := JsString.split_on "-" v in
    let padded := JsString.template_of_index parts 0 +:+ ".0-"
                  +:+ JsString.template_of_index parts 1 in
    if negb (valid v) && valid padded then padded else v.

(** The manifest as the connector keeps it. *)
Definition normalizeManifest (result : Manifest) : Manifest :=
  {| versions := List.map normalizeVersion <$> versions result;
     preview := preview result;
     view := view result |}.

(** The negotiated version; [None] is [null]. *)
Definition negotiate (config : Manifest) : option string :=
  match versions config with
  | None => Some "0.1.0"
  | Some vs => maxSatisfying vs
  end.

(** The callback of the manifest request. *)
Definition receive_manifest (c : Service) (result : Manifest) : Service :=
  let config := normalizeManifest result in
  {| _register := _register c;
     _prefix := _prefix c;
     endpoint := endpoint c;
     processLang := processLang c;
     acceptLang := acceptLang c;
     ReconcConfig := Some config;
     reconcVersion := negotiate config |}.

End Negotiation.

(** The connector right after [new ReconciliationService(configElem)], the
    manifest still on its way. *)
Definition constructed (register : string) (prefix : option string)
    (endpoint : string) (processLang acceptLang : option string) : Service :=
  {| _register := register;
     _prefix := prefix;
     endpoint := endpoint;
     processLang := processLang;
     acceptLang := acceptLang;
     ReconcConfig := None;
     reconcVersion := None |}.

(** The connector once the manifest [m] has arrived. *)
Definition ready (c : Service) (m : Manifest) : Service :=
  receive_manifest Semver.valid Semver.maxSatisfying_lt_0_3_1 c m.

(** *** Building the request *)

Definition queryObj (version : option string) (key : string) : value :=
  if is_newest version
  then VObj [("queries", VArr [VObj [("query", VStr key)]])]
  else VObj [("q0", VObj [("query", VStr key)])].

(** [JSON.stringify(v)] as a value. *)
Definition stringified (v : value) : value :=
  match Js.JSON_stringify v with
  | Some s => VStr s
  | None => VUndefined
  end.

(** ["queries=".concat(x)]. *)
Definition queries_concat (x : value) : value :=
  match x with
  | VStr s => VStr ("queries=" +:+ s)
  | _ => VStr "queries=undefined"
  end.

Definition qRequestInit (version : option string) (key : string) : RequestInit :=
  if is_newest version
  then {| method := "POST"; mode := None; credentials := None;
          headers := [("Accept", "application/json");
                      ("Content-Type", "application/json")];
          body := stringified (queryObj version key) |}
  else {| method := "POST"; mode := None; credentials := None;
          headers := [("Accept", "application/json");
                      ("Content-Type", "application/x-www-form-urlencoded")];
          body := queries_concat (stringified (queryObj version key)) |}.

(** [headers[name] = v]. *)
Fixpoint set_header (name v : string) (hs : list (string * string))
  : list (string * string) :=
  match hs with
  | [] => [(name, v)]
  | (n, x) :: rest =>
      if String.eqb n name then (n, v) :: rest else (n, x) :: set_header name v rest
  end.

Definition with_headers (hs : list (string * string)) (q : RequestInit) : RequestInit :=
  {| method := method q; mode := mode q; credentials := credentials q;
     headers := hs; body := body q |}.

Definition with_body (b : value) (q : RequestInit) : RequestInit :=
  {| method := method q; mode := mode q; credentials := credentials q;
     headers := headers q; body := b |}.

Definition attr_text (a : option string) : string :=
  match a with
  | Some s => s
  | None => "null"
  end.

(** The request [query] hands to [fetch], or what it throws on the way:
    the [Accept-Language] header, then the assignment
    [qInit.body.queries[0].lang = this.processLang]. *)
Definition query_init (c : Service) (key : string) : Js.result RequestInit :=
  let qInit := qRequestInit (reconcVersion c) key in
  let qInit :=
    if JsString.truthy_attr (acceptLang c) && is_newest (reconcVersion c)
    then with_headers
           (set_header "Accept-Language" (attr_text (acceptLang c)) (headers qInit))
           qInit
    else qInit in
  if JsString.truthy_attr (processLang c) && is_newest (reconcVersion c)
  then
    match Js.assign (body qInit) [Js.Name "queries"; Js.Index 0; Js.Name "lang"]
            (VStr (attr_text (processLang c))) with
    | Js.Ok b => Js.Ok (with_body b qInit)
    | Js.Throw r => Js.Throw r
    end
  else Js.Ok qInit.

(** *** Reading the answer *)

Definition no_config {A} : Js.result A :=
  Js.Throw (Js.type_error "Cannot read properties of undefined (reading 'view')").

(** [this.view]: the view template with the candidate's id in place of
    [{{id}}], or the id itself when the manifest has no view template. *)
Definition view_of (c : Service) (item : Candidate) : Js.result string :=
  match ReconcConfig c with
  | None => no_config
  | Some config =>
      match view config with
      | Some t => Js.Ok (JsString.replace "{{id}}" (item_id item) (url t))
      | None => Js.Ok (item_id item)
      end
  end.

(** [item.type.map(t => t.name.toString())]. *)
Fixpoint type_names (ts : list TypeEntry) : Js.result (list string) :=
  match ts with
  | [] => Js.Ok []
  | t :: rest =>
      match te_name t with
      | None =>
          Js.Throw (Js.type_error "Cannot read properties of undefined (reading 'toString')")
      | Some n =>
          match type_names rest with
          | Js.Ok ns => Js.Ok (n :: ns)
          | Js.Throw r => Js.Throw r
          end
      end
  end.

(** [this.description]. *)
Definition description_of (item : Candidate) : Js.result string :=
  match item_description item with
  | Some d =>
      if JsString.truthy d then Js.Ok d
      else match item_type item with
           | Some ts =>
               match type_names ts with
               | Js.Ok ns => Js.Ok (JsString.join ", " ns)
               | Js.Throw r => Js.Throw r
               end
           | None => Js.Ok ""
           end
  | None =>
      match item_type item with
      | Some ts =>
          match type_names ts with
          | Js.Ok ns => Js.Ok (JsString.join ", " ns)
          | Js.Throw r => Js.Throw r
          end
      | None => Js.Ok ""
      end
  end.

(** The [id] of a result record: [prefix-id] when the register has a
    prefix. *)
Definition prefixed (c : Service) (raw : string) : string :=
  match _prefix c with
  | Some p => if JsString.truthy p then p +:+ "-" +:+ raw else raw
  | None => raw
  end.

(** [item.type[0].name] of the newest variant. *)
Definition first_type_name (item : Candidate) : Js.result RType :=
  match item_type item with
  | None => Js.Throw (Js.type_error "Cannot read properties of undefined (reading '0')")
  | Some [] => Js.Throw (Js.type_error "Cannot read properties of undefined (reading 'name')")
  | Some (t :: _) =>
      Js.Ok (match te_name t with
             | Some n => TypeName n
             | None => TypeAbsent
             end)
  end.

(** [item.type] of the legacy variant. *)
Definition whole_type (item : Candidate) : RType :=
  match item_type item with
  | Some ts => TypeList ts
  | None => TypeAbsent
  end.

(** The body of the [forEach] callback: one candidate, one result record. *)
Definition record_of (c : Service) (newest : bool) (item : Candidate)
  : Js.result ResultRecord :=
  match view_of c item with
  | Js.Throw r => Js.Throw r
  | Js.Ok v =>
      match description_of item with
      | Js.Throw r => Js.Throw r
      | Js.Ok d =>
          match (if newest then first_type_name item else Js.Ok (whole_type item)) with
          | Js.Throw r => Js.Throw r
          | Js.Ok ty =>
              Js.Ok {| Result.register := _register c;
                       Result.id := prefixed c (item_id item);
                       Result.label := item_name item;
                       Result.type := ty;
                       Result.details := d;
                       Result.score := if newest then item_score item else None;
                       Result.link := v;
                       Result.provider := "Reconciliation" |}
          end
      end
  end.

(** [cands.forEach(item => results.push(...))]: the records in order, or the
    first thing thrown. *)
Fixpoint records_of (c : Service) (newest : bool) (cands : list Candidate)
  : Js.result (list ResultRecord) :=
  match cands with
  | [] => Js.Ok []
  | item :: rest =>
      match record_of c newest item with
      | Js.Throw r => Js.Throw r
      | Js.Ok rec =>
          match records_of c newest rest with
          | Js.Throw r => Js.Throw r
          | Js.Ok recs => Js.Ok (rec :: recs)
          end
      end
  end.

(** [obj[0].result] and [obj.q0.result], for [forEach]. *)
Definition candidates (newest : bool) (obj : Payload) : Js.result (list Candidate) :=
  if newest then
    match obj with
    | Batch (Some cands :: _) => Js.Ok cands
    | Batch (None :: _) | Found (_ :: _) =>
        Js.Throw (Js.type_error "Cannot read properties of undefined (reading 'forEach')")
    | _ => Js.Throw (Js.type_error "Cannot read properties of undefined (reading 'result')")
    end
  else
    match obj with
    | Legacy (Some (Some cands)) => Js.Ok cands
    | Legacy (Some None) =>
        Js.Throw (Js.type_error "Cannot read properties of undefined (reading 'forEach')")
    | _ => Js.Throw (Js.type_error "Cannot read properties of undefined (reading 'result')")
    end.

Definition _parseResponse (c : Service) (version : option string) (obj : Payload)
  : Js.result ResultSet :=
  match candidates (is_newest version) obj with
  | Js.Throw r => Js.Throw r
  | Js.Ok cands =>
      match records_of c (is_newest version) cands with
      | Js.Throw r => Js.Throw r
      | Js.Ok results =>
          Js.Ok {| Result.totalItems := Z.of_nat (List.length cands);
                   Result.items := results |}
      end
  end.

(** *** The operations *)

Section Operations.

Variable net : Network.

Definition query (c : Service) (key : string) : M World ResultSet :=
  qInit ← eval (query_init c key);
  response ← fetch net (endpoint c) (Some qInit);
  obj ← await (json response);
  eval (_parseResponse c (reconcVersion c) obj).

Definition no_preview : string :=
  "no 'preview' endpoint in reconciliation service's manifest".

(** [this._prefix ? key.substring(this._prefix.length + 1) : key]. *)
Definition rawid_of (c : Service) (key : string) : string :=
  match _prefix c with
  | Some p =>
      if JsString.truthy p then JsString.substring_from (String.length p + 1) key
      else key
  | None => key
  end.

(** [info] is not an async function: where it throws (the manifest not yet
    there), the caller's [await] inside [try] sees the same as a
    rejection, and it is given as one. *)
Definition info (c : Service) (id : string) : M World value :=
  if negb (JsString.truthy id) then mret (VObj [])
  else
    match ReconcConfig c with
    | None =>
        throw (Js.type_error "Cannot read properties of undefined (reading 'preview')")
    | Some config =>
        match preview config with
        | None => set_innerHTML no_preview ;; mret VUndefined
        | Some t =>
            new_Promise
              (try_catch
                 (let rawid := rawid_of c id in
                  let u := JsString.replace "{{id}}"
                             (JsString.encodeURIComponent rawid) (url t) in
                  response ← lift (fetch net u None);
                  output ← await (text response);
                  lift (set_innerHTML output) ;;
                  resolve (VObj [("id", VStr (prefixed c rawid))]))
                 (fun _ => reject Js.NoReason))
        end
    end.

(** [result.items[0]]; [None] is [undefined]. *)
Definition getRecord (c : Service) (key : string) : M World (option ResultRecord) :=
  let id := rawid_of c key in
  result ← query c id;
  mret (head (Result.items result)).

End Operations.

End Reconciliation.

(** ** The connector variant that reads records from the view URL

    A second version of class [ReconciliationService] is among the sources
    (src/unnamed/part_000). Its [getRecord] does not query the service: it
    fetches the JSON document behind the view URL. *)

Module ViewVariant.
Import Reconciliation.

Definition opt_field (k : string) (o : option value) : list (string * value) :=
  match o with
  | Some v => [(k, v)]
  | None => []
  end.

Definition type_value (t : TypeEntry) : value :=
  VObj (opt_field "id" (VStr <$> te_id t) ++ opt_field "name" (VStr <$> te_name t)).

Definition candidate_value (item : Candidate) : value :=
  VObj ([("id", VStr (item_id item)); ("name", VStr (item_name item))]
        ++ opt_field "description" (VStr <$> item_description item)
        ++ opt_field "type"
             ((fun ts => VArr (List.map type_value ts)) <$> item_type item)
        ++ opt_field "score" (VNum <$> item_score item)).

Definition result_value (r : option (list Candidate)) : value :=
  VObj (opt_field "result" ((fun cs => VArr (List.map candidate_value cs)) <$> r)).

Definition local_value (e : LocalItem) : value :=
  VObj [("id", VStr (local_id e)); ("label", VStr (local_label e));
        ("link", VStr (local_link e)); ("details", VStr (local_details e));
        ("strings", local_strings e)].

(** A JSON document read without regard to its shape. *)
Definition Payload_value (p : Payload) : value :=
  match p with
  | Batch rs => VArr (List.map result_value rs)
  | Legacy q0 => VObj (opt_field "q0" (result_value <$> q0))
  | Found found => VArr (List.map local_value found)
  | Entry e => local_value e
  | Raw v => v
  end.

(** The own properties [{...json}] copies. *)
Definition spread (json : value) : list (string * value) :=
  match json with
  | VObj fields => fields
  | VArr xs => imap (fun i x => (JsString.of_Z (Z.of_nat i), x)) xs
  | VStr s =>
      imap (fun i c => (JsString.of_Z (Z.of_nat i), VStr (String c "")))
           (list_ascii_of_string s)
  | _ => []
  end.

(** [{...json, name: json.prefLabel, link: viewUrl}]. *)
Definition view_record (viewUrl : string) (json : value) : Js.result value :=
  match Js.get json (Js.Name "prefLabel") with
  | Js.Throw r => Js.Throw r
  | Js.Ok prefLabel =>
      Js.Ok (VObj (Js.set_field "link" (VStr viewUrl)
                     (Js.set_field "name" prefLabel (spread json))))
  end.

Definition getRecord (net : Network) (c : Service) (key : string) : M World value :=
  let id := rawid_of c key in
  match ReconcConfig c with
  | None => throw (Js.type_error "Cannot read properties of undefined (reading 'view')")
  | Some config =>
      match view config with
      | None => throw Js.NoReason
      | Some t =>
          let viewUrl := JsString.replace "{{id}}" id (url t) in
          try_catch
            (response ← fetch net (viewUrl +:+ ".json") None;
             json ← (if ok response then await (json response)
                     else throw Js.NoReason);
             eval (view_record viewUrl (Payload_value json)))
            (fun _ => throw Js.NoReason)
      end
  end.

End ViewVariant.

(** ** The Metagrid connector (class [Metagrid]) *)

Module Metagrid.

(** The connector: the register name the base class [Registry] reads. *)
Record Service : Type := { _register : string }.

(** A result record of this connector; [link] and [provider] are handed on
    as the answer gives them. *)
Record Record_ : Type := {
  register : string;
  id : string;
  label : string;
  details : string;
  link : value;
  provider : value
}.

(** What [query] gives; [totalItems] is handed on as the answer gives it. *)
Record Results : Type := {
  totalItems : value;
  items : list Record_
}.

(** [String(v)], as a template literal prints a value. *)
Fixpoint to_string (v : value) : string :=
  match v with
  | VUndefined => "undefined"
  | VNull => "null"
  | VBool b => if b then "true" else "false"
  | VNum n => JsString.of_Z n
  | VStr s => s
  | VArr xs =>
      JsString.join ","
        (List.map (fun x => match x with
                            | VUndefined | VNull => ""
                            | _ => to_string x
                            end) xs)
  | VObj _ => "[object Object]"
  end.

(** [\w]. *)
Definition word (c : ascii) : bool :=
  Regex.letter c || Regex.digit c || Regex.char "_" c.

(** The characters [/[^\w\s]+/g] leaves in place. *)
Definition kept (c : ascii) : bool := word c || Regex.space c.

(** [key.replace(/[^\w\s]+/g, '')]. *)
Fixpoint strip_punctuation (key : string) : string :=
  match key with
  | EmptyString => ""
  | String c rest =>
      if kept c then String c (strip_punctuation rest) else strip_punctuation rest
  end.

(** [v.p1.p2...pn]. *)
Fixpoint path (v : value) (names : list string) : Js.result value :=
  match names with
  | [] => Js.Ok v
  | n :: rest =>
      match Js.get v (Js.Name n) with
      | Js.Ok child => path child rest
      | Js.Throw r => Js.Throw r
      end
  end.

(** A template literal of two values around a separator. *)
Definition both (a : value) (sep : string) (b : value) : string :=
  to_string a +:+ sep +:+ to_string b.

(** The body of the [forEach] callback of [query]. *)
Definition record_of (c : Service) (item : value) : Js.result Record_ :=
  match path item ["metadata"; "first_name"] with
  | Js.Throw r => Js.Throw r
  | Js.Ok first =>
  match path item ["metadata"; "last_name"] with
  | Js.Throw r => Js.Throw r
  | Js.Ok last =>
  match path item ["provider"; "slug"] with
  | Js.Throw r => Js.Throw r
  | Js.Ok slug =>
  match Js.get item (Js.Name "identifier") with
  | Js.Throw r => Js.Throw r
  | Js.Ok identifier =>
  match path item ["metadata"; "birth_date"] with
  | Js.Throw r => Js.Throw r
  | Js.Ok birth =>
  match path item ["metadata"; "death_date"] with
  | Js.Throw r => Js.Throw r
  | Js.Ok death =>
  match path item ["link"; "uri"] with
  | Js.Throw r => Js.Throw r
  | Js.Ok uri =>
      Js.Ok {| register := _register c;
               id := both slug "-" identifier;
               label := both first " " last;
               details := both birth " - " death;
               link := uri;
               provider := slug |}
  end end end end end end end.

Fixpoint records_of (c : Service) (resources : list value)
  : Js.result (list Record_) :=
  match resources with
  | [] => Js.Ok []
  | item :: rest =>
      match record_of c item with
      | Js.Throw r => Js.Throw r
      | Js.Ok rec =>
          match records_of c rest with
          | Js.Throw r => Js.Throw r
          | Js.Ok recs => Js.Ok (rec :: recs)
          end
      end
  end.

(** [json.resources], for [forEach]. *)
Definition resources_of (json : value) : Js.result (list value) :=
  match Js.get json (Js.Name "resources") with
  | Js.Throw r => Js.Throw r
  | Js.Ok (VArr xs) => Js.Ok xs
  | Js.Ok VUndefined | Js.Ok VNull =>
      Js.Throw (Js.type_error "Cannot read properties of undefined")
  | Js.Ok _ => Js.Throw (Js.type_error "json.resources.forEach is not a function")
  end.

Definition search_url (key : string) : string :=
  "https://api.metagrid.ch/search?query="
  +:+ JsString.encodeURIComponent (strip_punctuation key).

(** [key.indexOf(c)]; [None] is -1. *)
Fixpoint indexOf (c : ascii) (s : string) : option nat :=
  match s with
  | EmptyString => None
  | String a rest =>
      if Ascii.eqb a c then Some O else S <$> indexOf c rest
  end.

(** The first [n] code units of [s]. *)
Fixpoint first_units (n : nat) (s : string) : string :=
  match n, s with
  | S n', String a rest => String a (first_units n' rest)
  | _, _ => ""
  end.

(** [key.substring(0, p)] for [p = key.indexOf('-')]: a negative end counts
    as 0. *)
Definition slug_of (key : string) : string :=
  match indexOf "-" key with
  | Some p => first_units p key
  | None => ""
  end.

(** [key.substring(p)]: a negative start counts as 0. *)
Definition id_of (key : string) : string :=
  match indexOf "-" key with
  | Some p => JsString.substring_from p key
  | None => key
  end.

Definition info_url (key : string) : string :=
  "https://api.metagrid.ch/search?slug=" +:+ slug_of key
  +:+ "&query=" +:+ id_of key.

(** A line break, and a word between double quotes. *)
Definition nl : string := String "010" "".
Definition quoted (s : string) : string :=
  String Js.dquote s +:+ String Js.dquote "".

(** The markup [info] renders. *)
Definition output_of (uri first last birth death : value) : string :=
  nl +:+ "          <h3 class=" +:+ quoted "label" +:+ ">"
  +:+ nl +:+ "            <a href=" +:+ quoted ("https://" +:+ to_string uri)
  +:+ " target=" +:+ quoted "_blank" +:+ ">"
  +:+ nl +:+ "              " +:+ both first " " last
  +:+ nl +:+ "            </a>"
  +:+ nl +:+ "          </h3>"
  +:+ nl +:+ "          <p>" +:+ both birth " - " death +:+ "</p>"
  +:+ nl +:+ "        ".

(** What the callback of [info] reads from the answer before it writes:
    the first resource and the five values of the markup. *)
Definition preview_of (json : value) : Js.result (value * string) :=
  match path json ["resources"] with
  | Js.Throw r => Js.Throw r
  | Js.Ok rs =>
  match Js.get rs (Js.Index 0) with
  | Js.Throw r => Js.Throw r
  | Js.Ok item =>
  match path item ["link"; "uri"] with
  | Js.Throw r => Js.Throw r
  | Js.Ok uri =>
  match path item ["metadata"; "first_name"] with
  | Js.Throw r => Js.Throw r
  | Js.Ok first =>
  match path item ["metadata"; "last_name"] with
  | Js.Throw r => Js.Throw r
  | Js.Ok last =>
  match path item ["metadata"; "birth_date"] with
  | Js.Throw r => Js.Throw r
  | Js.Ok birth =>
  match path item ["metadata"; "death_date"] with
  | Js.Throw r => Js.Throw r
  | Js.Ok death => Js.Ok (item, output_of uri first last birth death)
  end end end end end end end.

(** The descriptor [info] resolves with. *)
Definition descriptor_of (key : string) (item : value) : Js.result value :=
  match Js.get item (Js.Name "identifier") with
  | Js.Throw r => Js.Throw r
  | Js.Ok identifier =>
  match path item ["metadata"; "first_name"] with
  | Js.Throw r => Js.Throw r
  | Js.Ok first =>
  match path item ["metadata"; "last_name"] with
  | Js.Throw r => Js.Throw r
  | Js.Ok last =>
      Js.Ok (VObj [("id", VStr (slug_of key +:+ "-" +:+ to_string identifier));
                   ("strings", VArr [VStr (both first " " last)])])
  end end end.

Section Operations.

Variable net : Network.

Definition query (c : Service) (key : string) : M World Results :=
  new_Promise
    (response ← lift (fetch net (search_url key) None);
     payload ← await (json response);
     let json := ViewVariant.Payload_value payload in
     resources ← eval (resources_of json);
     results ← eval (records_of c resources);
     total ← eval (path json ["meta"; "total"]);
     resolve {| totalItems := total; items := results |}).

Definition info (c : Service) (key : string) : M World value :=
  new_Promise
    (response ← lift (fetch net (info_url key) None);
     payload ← await (json response);
     let json := ViewVariant.Payload_value payload in
     '(item, output) ← eval (preview_of json);
     lift (set_innerHTML output) ;;
     descriptor ← eval (descriptor_of key item);
     resolve descriptor).

End Operations.

End Metagrid.

(** ** Connectors in general *)

Module Connector.

(** A connector, by how the promises of its operations end. [info] also
    takes the container's content and gives the content it leaves. *)
Record t : Type := {
  query : string -> settled ResultSet;
  info : string -> string -> string * settled value;
  getRecord : string -> settled value
}.

End Connector.

(** ** The composite connector (class [Custom]) *)

Module Custom.

Record Composite : Type := {
  _register : string;
  _editable : bool;
  _endpoint : string;
  _connectors : list Connector.t
}.

(** [await connector.query(key)], child number [i]. *)
Definition call_query (i : nat) (connector : Connector.t) (key : string)
  : M World ResultSet :=
  log (EvQuery i key) ;; await (Connector.query connector key).

(** The child's [info] at work on the container. *)
Definition run_info (connector : Connector.t) (key : string) : M World value :=
  fun w => let (html, out) := Connector.info connector key (innerHTML w) in
           ({| innerHTML := html; calls := calls w |}, out).

(** [await connector.info(key, container)]. *)
Definition call_info (i : nat) (connector : Connector.t) (key : string)
  : M World value :=
  log (EvInfo i key) ;; run_info connector key.

(** [connector.getRecord(id)]. *)
Definition call_getRecord (i : nat) (connector : Connector.t) (id : string)
  : M World value :=
  log (EvGetRecord i id) ;; await (Connector.getRecord connector id).

Definition local_record (c : Composite) (item : LocalItem) : ResultRecord :=
  {| Result.register := _register c;
     Result.id := local_id item;
     Result.label := local_label item;
     Result.type := TypeAbsent;
     Result.details := local_details item;
     Result.score := None;
     Result.link := local_link item;
     Result.provider := "local" |}.

(** [json.forEach(item => { results.push(...); localResults.add(item.id) })]
    from empty [results] and [localResults]. *)
Definition collect_local (c : Composite) (found : list LocalItem)
  : list ResultRecord * gset string :=
  fold_left
    (fun '(results, localResults) item =>
       (results ++ [local_record c item], localResults ∪ {[local_id item]}))
    found ([], ∅).

(** The loop over the child connectors in [query], from child number [i]
    on. *)
Fixpoint query_connectors (key : string) (localResults : gset string) (i : nat)
    (connectors : list Connector.t) (results : list ResultRecord) (totalItems : Z)
  : M World (list ResultRecord * Z) :=
  match connectors with
  | [] => mret (results, totalItems)
  | connector :: rest =>
      dr ← call_query i connector key;
      query_connectors key localResults (S i) rest
        (results ++ filter (fun result => Result.id result ∉ localResults)
                           (Result.items dr))
        (totalItems + Result.totalItems dr)%Z
  end.

(** The loop over the child connectors in [select]: the entry it ends
    with. *)
Fixpoint find_entry (id : string) (i : nat) (connectors : list Connector.t)
    (entry : value) : M World value :=
  match connectors with
  | [] => mret entry
  | connector :: rest =>
      entry ← try_catch (call_getRecord i connector id) (fun _ => mret VNull);
      if Js.truthy entry then mret entry else find_entry id (S i) rest entry
  end.

(** The loop over the child connectors in [info], inside the executor. *)
Fixpoint info_connectors (key : string) (i : nat) (connectors : list Connector.t)
  : M (Exec value) unit :=
  match connectors with
  | [] => mret tt
  | connector :: rest =>
      try_catch
        (cr ← lift (call_info i connector key);
         if Js.truthy cr then resolve cr else mret tt)
        (fun _ => mret tt) ;;
      info_connectors key (S i) rest
  end.

Section Operations.

Variable net : Network.

Definition search_url (c : Composite) (key : string) : string :=
  _endpoint c +:+ "/api/register/search/" +:+ _register c +:+ "?query="
  +:+ JsString.encodeURIComponent key.

Definition entry_url (c : Composite) (id : string) : string :=
  _endpoint c +:+ "/api/register/" +:+ _register c +:+ "/"
  +:+ JsString.encodeURIComponent id.

(** [query] runs on the list of entries the local register answers with
    ([Found]). A document that is not an array has no [forEach]; an array
    of anything but entries would give records whose properties are no
    strings, which [ResultRecord] does not hold: such an answer is treated
    like one the callback fails on, and the promise stays pending. *)
Definition query (c : Composite) (key : string) : M World ResultSet :=
  new_Promise
    (response ← lift (fetch net (search_url c key) None);
     json ← await (json response);
     match json with
     | Found found =>
         let '(results, localResults) := collect_local c found in
         let totalItems := Z.of_nat (List.length found) in
         '(results, totalItems) ←
           lift (query_connectors key localResults 0 (_connectors c)
                   results totalItems);
         resolve {| Result.totalItems := totalItems; Result.items := results |}
     | _ => throw (Js.type_error "json.forEach is not a function")
     end).

(** The text [container.innerHTML = v] stores: the empty string for
    [null], and [String(v)] for every other value. *)
Definition html_text (v : value) : string :=
  match v with
  | VNull => ""
  | _ => Metagrid.to_string v
  end.

(** [info] reads [details], [id] and [strings] of whatever JSON document
    an ok response holds. *)
Definition info (c : Composite) (key : string) : M World value :=
  if negb (JsString.truthy key) then mret (VObj [])
  else
    new_Promise
      (response ← lift (fetch net (entry_url c key) None);
       if ok response then
         payload ← await (json response);
         let json := ViewVariant.Payload_value payload in
         details ← eval (Js.get json (Js.Name "details"));
         lift (set_innerHTML (html_text details)) ;;
         id ← eval (Js.get json (Js.Name "id"));
         strings ← eval (Js.get json (Js.Name "strings"));
         resolve (VObj [("id", id); ("strings", strings);
                        ("editable", VBool (_editable c))])
       else
         (if (status response =? 404)%Z
          then info_connectors key 0 (_connectors c)
          else mret tt) ;;
         reject Js.NoReason).

Definition post_init (entry : value) : RequestInit :=
  {| method := "POST";
     mode := Some "cors";
     credentials := Some "same-origin";
     headers := [("Content-Type", "application/json")];
     body := Reconciliation.stringified entry |}.

Definition no_record (id : string) : Js.reason :=
  Js.JsError "Error" ("No record found for ID " +:+ id).

(** [select(item)], given [item.id]. *)
Definition select (c : Composite) (id : string) : M World Payload :=
  entry ← find_entry id 0 (_connectors c) VUndefined;
  if negb (Js.truthy entry) then throw (no_record id)
  else
    response ← fetch net (entry_url c id) (Some (post_init entry));
    if ok response then await (json response)
    else throw (Js.JsError "Error" (JsString.of_Z (status response))).

End Operations.

End Custom.

(** * Specifications

    The functions the properties below are stated with. *)

(** A description that is there: the property exists and is not the empty
    string. *)
Definition present (o : option string) : option string :=
  match o with
  | Some d => if JsString.truthy d then Some d else None
  | None => None
  end.

(** A comma-joined list of names: the first name, and every further name
    behind a comma and a space. *)
Definition comma_joined (names : list string) : string :=
  match names with
  | [] => ""
  | first :: others => fold_left (fun text n => text +:+ ", " +:+ n) others first
  end.

(** The rule of the data model for [details]: the description when one is
    present, else the comma-joined list of the names of the types when there
    is a type list, else the empty string. *)
Definition details_rule (item : Candidate) : string :=
  match present (item_description item) with
  | Some d => d
  | None =>
      match item_type item with
      | Some ts => comma_joined (omap te_name ts)
      | None => ""
      end
  end.

(** When the details come from the types, every type must have a name for
    the connector to read. *)
Definition names_readable (item : Candidate) : bool :=
  match present (item_description item), item_type item with
  | Some _, _ => true
  | None, Some ts => forallb (fun t => bool_decide (is_Some (te_name t))) ts
  | None, None => true
  end.

(** The newest variant reads [item.type[0].name]. *)
Definition first_type_readable (item : Candidate) : bool :=
  match item_type item with
  | Some (_ :: _) => true
  | _ => false
  end.

(** The candidates the connector turns into records. *)
Definition readable (newest : bool) (item : Candidate) : bool :=
  names_readable item && (if newest then first_type_readable item else true).

(** The record of a readable candidate, field by field. *)
Definition expected_record (c : Reconciliation.Service) (config : Manifest)
    (newest : bool) (item : Candidate) : ResultRecord :=
  {| Result.register := Reconciliation._register c;
     Result.id := Reconciliation.prefixed c (item_id item);
     Result.label := item_name item;
     Result.type :=
       if newest then
         match item_type item with
         | Some (t :: _) =>
             match te_name t with
             | Some n => TypeName n
             | None => TypeAbsent
             end
         | _ => TypeAbsent
         end
       else Reconciliation.whole_type item;
     Result.details := details_rule item;
     Result.score := if newest then item_score item else None;
     Result.link :=
       match view config with
       | Some t => JsString.replace "{{id}}" (item_id item) (url t)
       | None => item_id item
       end;
     Result.provider := "Reconciliation" |}.

(** The result record of an entry of the local register: the entry's id,
    label, link and details under the connector's register, with the
    provider [local]. *)
Definition local_result (register : string) (item : LocalItem) : ResultRecord :=
  {| Result.register := register;
     Result.id := local_id item;
     Result.label := local_label item;
     Result.type := TypeAbsent;
     Result.details := local_details item;
     Result.score := None;
     Result.link := local_link item;
     Result.provider := "local" |}.

(** The address of the entry [id] in the local register: the register's
    path under the endpoint, then the id, percent-encoded. *)
Definition register_entry (c : Custom.Composite) (id : string) : string :=
  Custom._endpoint c +:+ "/api/register/" +:+ Custom._register c +:+ "/"
  +:+ JsString.encodeURIComponent id.

(** The request that stores a record in the local register: a POST of the
    record's JSON text. *)
Definition store_request (entry : value) : RequestInit :=
  {| method := "POST";
     mode := Some "cors";
     credentials := Some "same-origin";
     headers := [("Content-Type", "application/json")];
     body := match Js.JSON_stringify entry with
             | Some text => VStr text
             | None => VUndefined
             end |}.

(** A word between double quotes. *)
Definition in_quotes (s : string) : string :=
  String "034" (s +:+ String "034" "").

(** The sum of the counts the children report. *)
Definition reported (drs : list ResultSet) : Z :=
  fold_right Z.add 0%Z (List.map Result.totalItems drs).

(** The items of one child that are not among the given local ids. *)
Definition not_local (ids : list string) (dr : ResultSet) : list ResultRecord :=
  filter (fun result => Result.id result ∉ ids) (Result.items dr).

(** The calls a loop makes to children [i], [i+1], ..., [n] of them. *)
Definition child_calls (ev : nat -> Event) (i n : nat) : list Event :=
  List.map ev (seq i n).

Arguments child_calls ev i n : simpl never.

(** The world after some more calls. *)
Definition logged (w : World) (events : list Event) : World :=
  {| innerHTML := innerHTML w; calls := calls w ++ events |}.

(** A child that yields no record for [id]: its [getRecord] rejects, or
    fulfils with a falsy value. *)
Definition declines (id : string) (connector : Connector.t) : bool :=
  match Connector.getRecord connector id with
  | Fulfilled entry => negb (Js.truthy entry)
  | Rejected _ => true
  | Pending => false
  end.

(** The container after the children's [info] calls, each working on what
    the one before it left. *)
Definition container_after (key : string) (connectors : list Connector.t)
    (html : string) : string :=
  fold_left (fun html connector => fst (Connector.info connector key html))
            connectors html.

(** The first truthy descriptor the children produce, each child run on the
    container the one before it left. *)
Fixpoint first_descriptor (key : string) (connectors : list Connector.t)
    (html : string) : option value :=
  match connectors with
  | [] => None
  | connector :: rest =>
      match Connector.info connector key html with
      | (html', Fulfilled cr) =>
          if Js.truthy cr then Some cr else first_descriptor key rest html'
      | (html', _) => first_descriptor key rest html'
      end
  end.

(** A child whose [info] always settles. *)
Definition info_settles (key : string) (connector : Connector.t) : Prop :=
  forall html : string, snd (Connector.info connector key html) <> Pending.

(** A promise that ended in a rejection. *)
Definition is_rejected {A : Type} (p : settled A) : bool :=
  match p with
  | Rejected _ => true
  | _ => false
  end.

(** The preview URL for the entry [id]: the template with the raw id,
    percent-encoded, in place of [{{id}}]. *)
Definition preview_url (c : Reconciliation.Service) (t : Template) (id : string)
  : string :=
  JsString.replace "{{id}}"
    (JsString.encodeURIComponent (Reconciliation.rawid_of c id)) (url t).

(** The JSON text of a query in the newest format, and the form body of a
    query in the legacy format. *)
Definition newest_body (key : string) : string :=
  "{" +:+ Js.quote "queries" +:+ ":[{" +:+ Js.quote "query" +:+ ":"
  +:+ Js.quote key +:+ "}]}".

Definition legacy_body (key : string) : string :=
  "queries={" +:+ Js.quote "q0" +:+ ":{" +:+ Js.quote "query" +:+ ":"
  +:+ Js.quote key +:+ "}}".

(** The view URL for [key]: the template with the key, prefix taken off, in
    place of [{{id}}]. *)
Definition view_url (c : Reconciliation.Service) (t : Template) (key : string)
  : string :=
  JsString.replace "{{id}}" (Reconciliation.rawid_of c key) (url t).

(** A resource of a Metagrid answer whose properties are all strings. *)
Record Resource : Type := {
  res_slug : string;
  res_identifier : string;
  res_first_name : string;
  res_last_name : string;
  res_birth_date : string;
  res_death_date : string;
  res_uri : string
}.

(** The JSON object of a resource. *)
Definition resource_value (r : Resource) : value :=
  VObj [("identifier", VStr (res_identifier r));
        ("provider", VObj [("slug", VStr (res_slug r))]);
        ("metadata", VObj [("first_name", VStr (res_first_name r));
                           ("last_name", VStr (res_last_name r));
                           ("birth_date", VStr (res_birth_date r));
                           ("death_date", VStr (res_death_date r))]);
        ("link", VObj [("uri", VStr (res_uri r))])].

(** The result record of a resource. *)
Definition resource_record (c : Metagrid.Service) (r : Resource) : Metagrid.Record_ :=
  {| Metagrid.register := Metagrid._register c;
     Metagrid.id := res_slug r +:+ "-" +:+ res_identifier r;
     Metagrid.label := res_first_name r +:+ " " +:+ res_last_name r;
     Metagrid.details := res_birth_date r +:+ " - " +:+ res_death_date r;
     Metagrid.link := VStr (res_uri r);
     Metagrid.provider := VStr (res_slug r) |}.

(** An answer Metagrid's connector cannot take resources from: the request
    failed, the body is not JSON, or the body is an object without
    [resources]. *)
Definition no_resources (answer : settled Response) : Prop :=
  (exists r : Js.reason, answer = Rejected r)
  \/ (exists response : Response,
         answer = Fulfilled response
         /\ ((exists r : Js.reason, json response = Rejected r)
             \/ (exists fields : list (string * value),
                    json response = Fulfilled (Raw (VObj fields))
                    /\ Js.assoc "resources" fields = VUndefined))).

(** A string without a dash. *)
Definition no_dash (s : string) : bool :=
  forallb (fun a => negb (Ascii.eqb a "-")) (list_ascii_of_string s).

(** * Examples

    Connectors, services and networks for the concrete runs below. *)

(** A world in which nothing has happened yet. *)
Definition quiet : World := {| innerHTML := ""; calls := [] |}.

(** A network on which every request fails. *)
Definition unreachable : Network := fun _ _ =>
  Rejected (Js.type_error "Failed to fetch").

(** A connector configured for the register [people], before its manifest
    has arrived. *)
Definition people : Reconciliation.Service :=
  Reconciliation.constructed "people" None "https://example.org/reconcile" None None.

(** The same connector once a manifest without versions, preview or view
    has arrived. *)
Definition legacy_people : Reconciliation.Service :=
  Reconciliation.ready people {| versions := None; preview := None; view := None |}.

(** The manifest of a service that advertises the newest version. *)
Definition newest_manifest : Manifest :=
  {| versions := Some ["0.3-alpha"; "0.1"]; preview := None; view := None |}.

(** A connector set to process German, at that service. *)
Definition german : Reconciliation.Service :=
  Reconciliation.ready
    (Reconciliation.constructed "people" None "https://example.org/reconcile"
       (Some "de") None)
    newest_manifest.

(** A connector with the prefix [gnd] whose manifest has neither versions
    nor a view template. *)
Definition gnd_people : Reconciliation.Service :=
  Reconciliation.ready
    (Reconciliation.constructed "people" (Some "gnd")
       "https://example.org/reconcile" None None)
    {| versions := None; preview := None; view := None |}.

(** The legacy answer of the specification's example: one candidate with a
    type and no description. *)
Definition person_X : Candidate :=
  {| item_id := "a"; item_name := "X"; item_description := None;
     item_type := Some [{| te_id := None; te_name := Some "Person" |}];
     item_score := None |}.

(** Two more candidates: one with an empty description and three types,
    one with a description and a type. *)
Definition polymath : Candidate :=
  {| item_id := "b"; item_name := "Y"; item_description := Some "";
     item_type := Some [{| te_id := Some "t1"; te_name := Some "Person" |};
                        {| te_id := None; te_name := Some "Author" |};
                        {| te_id := None; te_name := Some "Composer" |}];
     item_score := Some 87%Z |}.

Definition poet : Candidate :=
  {| item_id := "c"; item_name := "Z"; item_description := Some "A poet";
     item_type := Some [{| te_id := None; te_name := Some "Person" |}];
     item_score := None |}.

(** A service that answers every request with the given candidates, in the
    legacy format. A body is read once: after [json()], [text()] fails. *)
Definition answering (cands : list Candidate) : Network := fun _ _ =>
  Fulfilled {| ok := true; status := 200;
               text := Rejected (Js.type_error "body stream already read");
               json := Fulfilled (Legacy (Some (Some cands))) |}.

(** A composite connector for the register [people] with the given
    children. *)
Definition register_with (children : list Connector.t) : Custom.Composite :=
  {| Custom._register := "people"; Custom._editable := true;
     Custom._endpoint := "https://example.org/exist/apps/tei-publisher";
     Custom._connectors := children |}.

(** A local entry with id 1. *)
Definition local_1 : LocalItem :=
  {| local_id := "1"; local_label := "Ada"; local_link := "/people/1";
     local_details := "local entry"; local_strings := VArr [VStr "Ada"] |}.

(** A record as a child connector reports it. *)
Definition remote (id : string) : ResultRecord :=
  {| Result.register := "people"; Result.id := id; Result.label := "Ada";
     Result.type := TypeAbsent; Result.details := ""; Result.score := None;
     Result.link := id; Result.provider := "Reconciliation" |}.

(** A child whose query reports the ids 1 and 2. *)
Definition child_1_2 : Connector.t :=
  {| Connector.query := fun _ =>
       Fulfilled {| Result.totalItems := 2; Result.items := [remote "1"; remote "2"] |};
     Connector.info := fun _ html => (html, Rejected Js.NoReason);
     Connector.getRecord := fun _ => Rejected Js.NoReason |}.

(** A child whose query reports the ids 2 and 3. *)
Definition child_2_3 : Connector.t :=
  {| Connector.query := fun _ =>
       Fulfilled {| Result.totalItems := 2; Result.items := [remote "2"; remote "3"] |};
     Connector.info := fun _ html => (html, Rejected Js.NoReason);
     Connector.getRecord := fun _ => Rejected Js.NoReason |}.

(** A child whose service cannot be reached. *)
Definition child_down : Connector.t :=
  {| Connector.query := fun _ => Rejected (Js.type_error "Failed to fetch");
     Connector.info := fun _ html => (html, Rejected Js.NoReason);
     Connector.getRecord := fun _ => Rejected (Js.type_error "Failed to fetch") |}.

(** A child that has a record for every id. *)
Definition child_knows : Connector.t :=
  {| Connector.query := fun _ => Rejected Js.NoReason;
     Connector.info := fun _ html => (html, Rejected Js.NoReason);
     Connector.getRecord := fun id =>
       Fulfilled (VObj [("id", VStr id); ("label", VStr "Ada")]) |}.

(** A child whose [info] writes [html] into the container and names the
    entry [id]. *)
Definition child_writes (html : string) (id : string) : Connector.t :=
  {| Connector.query := fun _ => Rejected Js.NoReason;
     Connector.info := fun _ _ => (html, Fulfilled (VObj [("id", VStr id)]));
     Connector.getRecord := fun _ => Rejected Js.NoReason |}.

(** The local register's answer to a search. *)
Definition found_response (found : list LocalItem) : Response :=
  {| ok := true; status := 200;
     text := Rejected (Js.type_error "body stream already read");
     json := Fulfilled (Found found) |}.

(** A network on which the local register answers every search with
    [found]. *)
Definition local_answers (found : list LocalItem) : Network := fun _ _ =>
  Fulfilled (found_response found).

(** A local register that refuses every request. *)
Definition refusing : Network := fun _ _ =>
  Fulfilled {| ok := false; status := 403;
               text := Fulfilled "Forbidden";
               json := Rejected (Js.JsError "SyntaxError" "Unexpected token") |}.

(** A local register that knows no entry. *)
Definition not_found : Network := fun _ _ =>
  Fulfilled {| ok := false; status := 404;
               text := Fulfilled "";
               json := Rejected (Js.JsError "SyntaxError" "Unexpected end of JSON input") |}.

(** A connector with the prefix [gnd] and an accept-language hint, at a
    service that advertises the newest version and a preview template. *)
Definition gnd_previews : Reconciliation.Service :=
  Reconciliation.ready
    (Reconciliation.constructed "people" (Some "gnd")
       "https://example.org/reconcile" None (Some "en"))
    {| versions := Some ["0.3-alpha"; "0.1"];
       preview := Some {| url := "https://example.org/preview?id={{id}}" |};
       view := None |}.

(** A network that answers every request with the text [html]. *)
Definition text_answers (html : string) : Network := fun _ _ =>
  Fulfilled {| ok := true; status := 200; text := Fulfilled html;
               json := Rejected (Js.JsError "SyntaxError" "Unexpected token <") |}.

(** The connector of the examples with an accept-language and a
    process-language hint, its manifest without versions. *)
Definition hinted_legacy : Reconciliation.Service :=
  Reconciliation.ready
    (Reconciliation.constructed "people" None "https://example.org/reconcile"
       (Some "de") (Some "en"))
    {| versions := None; preview := None; view := None |}.

(** A local register that has the entry [e] under every id. *)
Definition entry_answers (e : LocalItem) : Network := fun _ _ =>
  Fulfilled {| ok := true; status := 200;
               text := Rejected (Js.type_error "body stream already read");
               json := Fulfilled (Entry e) |}.

(** A local register that fails with status 500. *)
Definition server_error : Network := fun _ _ =>
  Fulfilled {| ok := false; status := 500;
               text := Fulfilled "Internal Server Error";
               json := Rejected (Js.JsError "SyntaxError" "Unexpected token I") |}.

(** A connector with the prefix [gnd] at a service with a view template. *)
Definition gnd_views : Reconciliation.Service :=
  Reconciliation.ready
    (Reconciliation.constructed "people" (Some "gnd")
       "https://example.org/reconcile" None None)
    {| versions := None; preview := None;
       view := Some {| url := "https://example.org/entity/{{id}}" |} |}.

(** A network that answers every request with the JSON object of the given
    properties. *)
Definition object_answers (fields : list (string * value)) : Network := fun _ _ =>
  Fulfilled {| ok := true; status := 200;
               text := Rejected (Js.type_error "body stream already read");
               json := Fulfilled (Raw (VObj fields)) |}.

(** A Metagrid connector, a resource, and a network on which Metagrid
    reports that resource and a total of 57. *)
Definition metagrid_people : Metagrid.Service := {| Metagrid._register := "people" |}.

Definition lovelace : Resource :=
  {| res_slug := "dodis"; res_identifier := "P42";
     res_first_name := "Ada"; res_last_name := "Lovelace";
     res_birth_date := "1815"; res_death_date := "1852";
     res_uri := "dodis.ch/P42" |}.

Definition metagrid_answers : Network :=
  object_answers [("meta", VObj [("total", VNum 57)]);
                  ("resources", VArr [resource_value lovelace])].

(** * Properties *)

(** ** Tactics and basic facts *)

(** Unfold the monad's operations in the goal. *)
Ltac unfold_M :=
  unfold mbind, mret, M_bind, M_ret, await, throw, eval, try_catch, log,
    set_innerHTML, settle, resolve, reject, lift, new_Promise, fetch in *.

Lemma app_String (a : ascii) (s t : string) :
  String a s +:+ t = String a (s +:+ t).
Proof. reflexivity. Qed.

Lemma app_Empty (t : string) : "" +:+ t = t.
Proof. reflexivity. Qed.

Lemma starts_with_app (p s : string) : JsString.starts_with p (p +:+ s) = true.
Proof.
  induction p as [|a p IH].
  - reflexivity.
  - rewrite app_String. simpl. rewrite Ascii.eqb_refl. exact IH.
Qed.

Lemma string_app_empty_r (s : string) : s +:+ "" = s.
Proof.
  induction s as [|a s IH]; [reflexivity|].
  rewrite app_String. now rewrite IH.
Qed.

Lemma starts_with_refl (p : string) : JsString.starts_with p p = true.
Proof. rewrite <- (string_app_empty_r p) at 2. apply starts_with_app. Qed.

Lemma includes_unfold (p s : string) :
  JsString.includes p s
  = JsString.starts_with p s
    || match s with
       | EmptyString => false
       | String _ s' => JsString.includes p s'
       end.
Proof. destruct s; reflexivity. Qed.

Lemma includes_app_r (p pre : string) : JsString.includes p (pre +:+ p) = true.
Proof.
  induction pre as [|a pre IH].
  - rewrite app_Empty, includes_unfold, starts_with_refl. reflexivity.
  - rewrite app_String, includes_unfold, IH. apply orb_true_r.
Qed.

Lemma substring_from_app (p s : string) :
  JsString.substring_from (String.length p) (p +:+ s) = s.
Proof.
  induction p as [|a p IH]; [reflexivity|].
  rewrite app_String. simpl. exact IH.
Qed.

Lemma string_length_app (a b : string) :
  String.length (a +:+ b) = (String.length a + String.length b)%nat.
Proof.
  induction a as [|c a IH]; [reflexivity|].
  rewrite app_String. simpl. now rewrite IH.
Qed.

Lemma string_app_assoc (a b c : string) : (a +:+ b) +:+ c = a +:+ (b +:+ c).
Proof.
  induction a as [|x a IH]; [reflexivity|].
  rewrite !app_String. now rewrite IH.
Qed.

(** ** Version normalisation and negotiation *)

Section NegotiationFacts.

Variable valid : string -> bool.

(** A version the library accepts is left as it is. *)
Lemma normalizeVersion_valid (v : string) :
  valid v = true -> Reconciliation.normalizeVersion valid v = v.
Proof.
  intros Hv. unfold Reconciliation.normalizeVersion.
  rewrite Hv. reflexivity.
Qed.

(** The normalisation either leaves a version alone or turns it into one the
    library accepts. *)
Lemma normalizeVersion_cases (v : string) :
  Reconciliation.normalizeVersion valid v = v
  \/ valid (Reconciliation.normalizeVersion valid v) = true.
Proof.
  unfold Reconciliation.normalizeVersion.
  destruct (valid v) eqn:Hv; simpl.
  - left. reflexivity.
  - destruct (valid (v +:+ ".0")) eqn:H0.
    + right. exact H0.
    + match goal with
      | |- context [valid ?p] =>
          destruct (valid p) eqn:Hp; [right; exact Hp | left; reflexivity]
      end.
Qed.

Lemma normalizeManifest_twice (m : Manifest) :
  Reconciliation.normalizeManifest valid (Reconciliation.normalizeManifest valid m)
  = Reconciliation.normalizeManifest valid m.
Proof.
  unfold Reconciliation.normalizeManifest; simpl. f_equal.
  destruct (versions m) as [vs|]; simpl; [|reflexivity].
  f_equal. rewrite List.map_map.
  apply List.map_ext. intros v.
  destruct (normalizeVersion_cases v) as [H | H].
  - rewrite H. exact H.
  - apply normalizeVersion_valid. exact H.
Qed.

End NegotiationFacts.

(** C6. The normalisation of an advertised version string (zero-padding a
    two-component version, keeping its pre-release suffix) is idempotent:
    for every version string, and whatever strings the semver library
    accepts as valid, normalising twice gives what normalising once
    gives. *)
Theorem normalizeVersion_idempotent (valid : string -> bool) (v : string) :
  Reconciliation.normalizeVersion valid (Reconciliation.normalizeVersion valid v)
  = Reconciliation.normalizeVersion valid v.
Proof.
  destruct (normalizeVersion_cases valid v) as [Hsame | Hvalid].
  - rewrite Hsame. exact Hsame.
  - apply normalizeVersion_valid. exact Hvalid.
Qed.

(** The versions of the specification's example, normalised by the modelled
    library, and the version negotiated from them. *)
Example normalize_example :
  List.map (Reconciliation.normalizeVersion Semver.valid) ["0.3"; "0.2-alpha"; "0.1"]
  = ["0.3.0"; "0.2.0-alpha"; "0.1.0"].
Proof. vm_compute. reflexivity. Qed.

Example negotiate_example :
  Reconciliation.negotiate Semver.maxSatisfying_lt_0_3_1
    (Reconciliation.normalizeManifest Semver.valid
       {| versions := Some ["0.3"; "0.2-alpha"; "0.1"];
          preview := None; view := None |})
  = Some "0.3.0".
Proof. vm_compute. reflexivity. Qed.

(** [maxSatisfying] answers with one of the versions it was given. *)
Lemma maxSatisfying_fold_mem (test : string -> bool) (vs : list string)
    (start : option string) (v : string) :
  fold_left (Semver.max_step test) vs start = Some v ->
  start = Some v \/ In v vs.
Proof.
  revert start. induction vs as [|x vs IH]; simpl; intros start H.
  - left. exact H.
  - apply IH in H. destruct H as [H | H]; [|right; right; exact H].
    unfold Semver.max_step in H.
    destruct (test x); [|left; exact H].
    destruct start as [m|].
    + destruct (Semver.new_SemVer m), (Semver.new_SemVer x);
        try (left; exact H).
      destruct (Semver.compare _ _); try (left; exact H).
      injection H as ->. right. left. reflexivity.
    + injection H as ->. right. left. reflexivity.
Qed.

Lemma maxSatisfying_mem (test : string -> bool) (vs : list string) (v : string) :
  Semver.maxSatisfying test vs = Some v -> In v vs.
Proof.
  intros H. apply maxSatisfying_fold_mem in H.
  destruct H as [H | H]; [discriminate | exact H].
Qed.

(** A negotiated version is the default or one of the normalised versions
    the manifest advertises. *)
Lemma negotiated_is_advertised (c : Reconciliation.Service) (m : Manifest)
    (v : string) :
  Reconciliation.reconcVersion (Reconciliation.ready c m) = Some v ->
  (versions m = None /\ v = "0.1.0")
  \/ (exists vs, versions m = Some vs
                 /\ In v (List.map (Reconciliation.normalizeVersion Semver.valid) vs)).
Proof.
  unfold Reconciliation.ready, Reconciliation.receive_manifest,
    Reconciliation.negotiate; simpl.
  destruct (versions m) as [vs|]; simpl.
  - intros H. right. exists vs. split; [reflexivity|].
    now apply (maxSatisfying_mem (Semver.range_lt Semver.v0_3_1)).
  - intros [= <-]. left. split; reflexivity.
Qed.

(** C4, the claim as stated fails: a manifest whose [versions] is the empty
    list negotiates no version at all ([null]); only a manifest without a
    [versions] field yields the default [0.1.0]. *)
Lemma empty_versions_negotiate_null :
  Reconciliation.reconcVersion
    (Reconciliation.ready people
       {| versions := Some []; preview := None; view := None |}) = None
  /\ Reconciliation.reconcVersion
       (Reconciliation.ready people
          {| versions := None; preview := None; view := None |}) = Some "0.1.0".
Proof. split; reflexivity. Qed.

(** C4, as amended. A manifest with no [versions] field yields the fixed
    default version [0.1.0]; a manifest whose [versions] is the empty list
    yields no version ([null]); any other list yields the greatest of its
    normalised versions below [0.3.1]. A connector without a version builds
    its requests and reads its answers exactly as one with the default
    version does (the legacy wire format). *)
Theorem negotiated_version (c : Reconciliation.Service) (m : Manifest) :
  Reconciliation.reconcVersion (Reconciliation.ready c m)
  = match versions m with
    | None => Some "0.1.0"
    | Some [] => None
    | Some (v :: vs) =>
        Semver.maxSatisfying_lt_0_3_1
          (List.map (Reconciliation.normalizeVersion Semver.valid) (v :: vs))
    end
  /\ (forall key : string,
        Reconciliation.qRequestInit None key
        = Reconciliation.qRequestInit (Some "0.1.0") key)
  /\ (forall (s : Reconciliation.Service) (obj : Payload),
        Reconciliation._parseResponse s None obj
        = Reconciliation._parseResponse s (Some "0.1.0") obj).
Proof.
  split; [|split].
  - unfold Reconciliation.ready, Reconciliation.receive_manifest,
      Reconciliation.negotiate; simpl.
    destruct (versions m) as [[|v vs]|]; reflexivity.
  - intros key. reflexivity.
  - intros s obj. reflexivity.
Qed.

(** ** Building the request *)

Lemma stringified_object (fields : list (string * value)) :
  exists s, Reconciliation.stringified (VObj fields) = VStr s.
Proof. unfold Reconciliation.stringified. simpl. eauto. Qed.

(** Writing [.queries[0].lang] through a string throws: a string has no
    property [queries], and [undefined[0]] cannot be read. *)
Lemma assign_through_string (s : string) (x : value) :
  Js.assign (VStr s) [Js.Name "queries"; Js.Index 0; Js.Name "lang"] x
  = Js.Throw (Js.type_error "Cannot read properties of undefined").
Proof. reflexivity. Qed.

Lemma body_newest (version : option string) (key : string) :
  Reconciliation.is_newest version = true ->
  body (Reconciliation.qRequestInit version key)
  = Reconciliation.stringified
      (VObj [("queries", VArr [VObj [("query", VStr key)]])]).
Proof.
  intros H. unfold Reconciliation.qRequestInit, Reconciliation.queryObj.
  rewrite H. reflexivity.
Qed.

(** The request of the newest variant when no process language is set: a
    POST of the JSON document [{queries: [{query: key}]}] as
    [application/json], with [Accept-Language] when that hint is set. *)
Lemma query_init_newest (c : Reconciliation.Service) (key : string) :
  Reconciliation.is_newest (Reconciliation.reconcVersion c) = true ->
  JsString.truthy_attr (Reconciliation.processLang c) = false ->
  Reconciliation.query_init c key
  = Js.Ok {| method := "POST"; mode := None; credentials := None;
             headers :=
               [("Accept", "application/json");
                ("Content-Type", "application/json")]
               ++ (if JsString.truthy_attr (Reconciliation.acceptLang c)
                   then [("Accept-Language",
                          Reconciliation.attr_text (Reconciliation.acceptLang c))]
                   else []);
             body := Reconciliation.stringified
                       (VObj [("queries", VArr [VObj [("query", VStr key)]])]) |}.
Proof.
  intros Hv Hp. unfold Reconciliation.query_init.
  rewrite Hv, Hp, !andb_true_r. simpl.
  unfold Reconciliation.qRequestInit, Reconciliation.queryObj. rewrite Hv.
  destruct (JsString.truthy_attr (Reconciliation.acceptLang c)); reflexivity.
Qed.

(** The request for any other version: the form-encoded legacy body, the
    language hints left out. *)
Lemma query_init_legacy (c : Reconciliation.Service) (key : string) :
  Reconciliation.is_newest (Reconciliation.reconcVersion c) = false ->
  Reconciliation.query_init c key
  = Js.Ok {| method := "POST"; mode := None; credentials := None;
             headers :=
               [("Accept", "application/json");
                ("Content-Type", "application/x-www-form-urlencoded")];
             body := Reconciliation.queries_concat
                       (Reconciliation.stringified
                          (VObj [("q0", VObj [("query", VStr key)])])) |}.
Proof.
  intros Hv. unfold Reconciliation.query_init.
  rewrite Hv, !andb_false_r.
  unfold Reconciliation.qRequestInit, Reconciliation.queryObj. rewrite Hv.
  reflexivity.
Qed.

Lemma query_init_processLang (c : Reconciliation.Service) (key : string) :
  Reconciliation.is_newest (Reconciliation.reconcVersion c) = true ->
  JsString.truthy_attr (Reconciliation.processLang c) = true ->
  Reconciliation.query_init c key
  = Js.Throw (Js.type_error "Cannot read properties of undefined").
Proof.
  intros Hv Hp. unfold Reconciliation.query_init.
  rewrite Hv, Hp, !andb_true_r.
  set (q := if JsString.truthy_attr (Reconciliation.acceptLang c) then _ else _).
  assert (Hq : body q = body (Reconciliation.qRequestInit
                                (Reconciliation.reconcVersion c) key)).
  { subst q. destruct (JsString.truthy_attr (Reconciliation.acceptLang c));
      reflexivity. }
  rewrite Hq, (body_newest _ _ Hv).
  destruct (stringified_object [("queries", VArr [VObj [("query", VStr key)]])])
    as [s ->].
  rewrite assign_through_string. reflexivity.
Qed.

(** C7, where the code departs from the claim. With the newest version
    negotiated and a process language set, [query] sends nothing: the body
    is already JSON text when the [lang] field is written into it, the write
    throws a [TypeError], and the promise is rejected. *)
Theorem query_with_processLang_rejects (net : Network)
    (c : Reconciliation.Service) (key : string) (w : World) :
  Reconciliation.is_newest (Reconciliation.reconcVersion c) = true ->
  JsString.truthy_attr (Reconciliation.processLang c) = true ->
  Reconciliation.query net c key w
  = (w, Rejected (Js.type_error "Cannot read properties of undefined")).
Proof.
  intros Hv Hp. unfold Reconciliation.query.
  rewrite (query_init_processLang c key Hv Hp).
  reflexivity.
Qed.

Lemma query_with_processLang_rejects_witness :
  Reconciliation.reconcVersion german = Some "0.3.0-alpha"
  /\ Reconciliation.query unreachable german "Goethe" quiet
     = (quiet, Rejected (Js.type_error "Cannot read properties of undefined")).
Proof.
  split.
  - vm_compute. reflexivity.
  - apply (query_with_processLang_rejects unreachable german "Goethe" quiet);
      vm_compute; reflexivity.
Defined.

(** ** The preview *)

(** C8. For every non-empty id, [info] on a connector whose manifest has no
    preview template writes the fixed, non-empty message into the container,
    sends nothing, and fulfils (it does not reject) with no descriptor
    ([undefined], a falsy value). *)
Theorem info_without_preview (net : Network) (c : Reconciliation.Service)
    (config : Manifest) (id : string) (w : World) :
  JsString.truthy id = true ->
  Reconciliation.ReconcConfig c = Some config ->
  preview config = None ->
  Reconciliation.info net c id w
  = ({| innerHTML := Reconciliation.no_preview; calls := calls w |},
     Fulfilled VUndefined)
  /\ JsString.truthy Reconciliation.no_preview = true
  /\ Js.truthy VUndefined = false.
Proof.
  intros Hid Hc Hp. split; [|split; reflexivity].
  unfold Reconciliation.info. rewrite Hid, Hc, Hp. reflexivity.
Qed.

Lemma info_without_preview_witness :
  Reconciliation.info unreachable german "gnd-118540238"
    {| innerHTML := "<p>old</p>"; calls := [] |}
  = ({| innerHTML := "no 'preview' endpoint in reconciliation service's manifest";
        calls := [] |},
     Fulfilled VUndefined)
  /\ JsString.truthy Reconciliation.no_preview = true
  /\ Js.truthy VUndefined = false.
Proof.
  apply (info_without_preview unreachable german
           (Reconciliation.normalizeManifest Semver.valid newest_manifest)
           "gnd-118540238" {| innerHTML := "<p>old</p>"; calls := [] |});
    reflexivity.
Defined.

(** ** Reading the answer: the details of a record *)

Lemma type_names_ok (ts : list TypeEntry) (ns : list string) :
  Reconciliation.type_names ts = Js.Ok ns -> ns = omap te_name ts.
Proof.
  revert ns. induction ts as [|t ts IH]; simpl; intros ns H.
  - now injection H as <-.
  - destruct (te_name t) as [n|]; [|discriminate]. simpl.
    destruct (Reconciliation.type_names ts) as [ns'|]; [|discriminate].
    injection H as <-. f_equal. now apply IH.
Qed.

Lemma type_names_readable (ts : list TypeEntry) :
  forallb (fun t => bool_decide (is_Some (te_name t))) ts = true ->
  Reconciliation.type_names ts = Js.Ok (omap te_name ts).
Proof.
  induction ts as [|t ts IH]; simpl; intros H.
  - reflexivity.
  - apply andb_true_iff in H as [Ht Hts].
    apply bool_decide_eq_true in Ht as [n Hn].
    rewrite Hn, (IH Hts). reflexivity.
Qed.

Lemma comma_joined_from (others : list string) (p first : string) :
  fold_left (fun text n => text +:+ ", " +:+ n) others (p +:+ first)
  = p +:+ fold_left (fun text n => text +:+ ", " +:+ n) others first.
Proof.
  revert first. induction others as [|n others IH]; intros first; simpl.
  - reflexivity.
  - rewrite string_app_assoc. apply IH.
Qed.

(** What [join(', ')] gives is the comma-joined list. *)
Lemma join_comma_joined (names : list string) :
  JsString.join ", " names = comma_joined names.
Proof.
  destruct names as [|first others]; [reflexivity|].
  revert first. induction others as [|n others IH]; intros first.
  - reflexivity.
  - change (JsString.join ", " (first :: n :: others))
      with (first +:+ ", " +:+ JsString.join ", " (n :: others)).
    rewrite IH. unfold comma_joined. simpl.
    rewrite !comma_joined_from. reflexivity.
Qed.

(** Whenever the connector computes a description, it is the one the rule
    gives. *)
Lemma description_of_rule (item : Candidate) (d : string) :
  Reconciliation.description_of item = Js.Ok d -> d = details_rule item.
Proof.
  unfold Reconciliation.description_of, details_rule, present.
  destruct (item_description item) as [desc|].
  - destruct (JsString.truthy desc).
    + now intros [= <-].
    + destruct (item_type item) as [ts|]; [|now intros [= <-]].
      destruct (Reconciliation.type_names ts) as [ns|] eqn:E; [|discriminate].
      intros [= <-]. rewrite (type_names_ok _ _ E). apply join_comma_joined.
  - destruct (item_type item) as [ts|]; [|now intros [= <-]].
    destruct (Reconciliation.type_names ts) as [ns|] eqn:E; [|discriminate].
    intros [= <-]. rewrite (type_names_ok _ _ E). apply join_comma_joined.
Qed.

Lemma description_of_readable (item : Candidate) :
  names_readable item = true ->
  Reconciliation.description_of item = Js.Ok (details_rule item).
Proof.
  unfold Reconciliation.description_of, details_rule, names_readable, present.
  destruct (item_description item) as [desc|].
  - destruct (JsString.truthy desc); [reflexivity|].
    destruct (item_type item) as [ts|]; [|reflexivity].
    intros H. now rewrite (type_names_readable _ H), join_comma_joined.
  - destruct (item_type item) as [ts|]; [|reflexivity].
    intros H. now rewrite (type_names_readable _ H), join_comma_joined.
Qed.

Lemma record_of_details (c : Reconciliation.Service) (newest : bool)
    (item : Candidate) (r : ResultRecord) :
  Reconciliation.record_of c newest item = Js.Ok r ->
  Result.details r = details_rule item.
Proof.
  unfold Reconciliation.record_of.
  destruct (Reconciliation.view_of c item); [|discriminate].
  destruct (Reconciliation.description_of item) as [d|] eqn:E; [|discriminate].
  destruct (if newest then _ else _); [|discriminate].
  intros [= <-]. simpl. now apply description_of_rule.
Qed.

Lemma record_of_readable (c : Reconciliation.Service) (config : Manifest)
    (newest : bool) (item : Candidate) :
  Reconciliation.ReconcConfig c = Some config ->
  readable newest item = true ->
  Reconciliation.record_of c newest item
  = Js.Ok (expected_record c config newest item).
Proof.
  intros Hc Hr. apply andb_true_iff in Hr as [Hn Hf].
  unfold Reconciliation.record_of, Reconciliation.view_of, expected_record.
  rewrite Hc, (description_of_readable _ Hn).
  destruct newest.
  - unfold Reconciliation.first_type_name, first_type_readable in *.
    destruct (item_type item) as [[|t ts]|]; try discriminate.
    destruct (view config); reflexivity.
  - destruct (view config); reflexivity.
Qed.

Lemma records_of_details (c : Reconciliation.Service) (newest : bool)
    (cands : list Candidate) (recs : list ResultRecord) :
  Reconciliation.records_of c newest cands = Js.Ok recs ->
  Forall2 (fun item r => Result.details r = details_rule item) cands recs.
Proof.
  revert recs. induction cands as [|item cands IH]; simpl; intros recs H.
  - injection H as <-. constructor.
  - destruct (Reconciliation.record_of c newest item) as [r|] eqn:E; [|discriminate].
    destruct (Reconciliation.records_of c newest cands) as [rs|]; [|discriminate].
    injection H as <-. constructor.
    + now apply (record_of_details c newest).
    + now apply IH.
Qed.

Lemma records_of_readable (c : Reconciliation.Service) (config : Manifest)
    (newest : bool) (cands : list Candidate) :
  Reconciliation.ReconcConfig c = Some config ->
  forallb (readable newest) cands = true ->
  Reconciliation.records_of c newest cands
  = Js.Ok (List.map (expected_record c config newest) cands).
Proof.
  intros Hc. induction cands as [|item cands IH]; simpl; intros H.
  - reflexivity.
  - apply andb_true_iff in H as [Hi Hrest].
    rewrite (record_of_readable c config newest item Hc Hi), (IH Hrest).
    reflexivity.
Qed.

(** C9. For the candidates of a parsed response, in either protocol
    variant: every result record the connector produces has as [details] the
    candidate's description when one is present, otherwise the names of the
    candidate's types joined by a comma when a type list is present,
    otherwise the empty string; and the connector does produce a record for
    every candidate it can read (the manifest has arrived, the types that
    are read have names, and the newest variant finds a first type). *)
Theorem details_follow_rule (c : Reconciliation.Service)
    (version : option string) (obj : Payload) (cands : list Candidate) :
  Reconciliation.candidates (Reconciliation.is_newest version) obj = Js.Ok cands ->
  (forall rs : ResultSet,
      Reconciliation._parseResponse c version obj = Js.Ok rs ->
      Forall2 (fun item r => Result.details r = details_rule item)
              cands (Result.items rs))
  /\ (forall config : Manifest,
        Reconciliation.ReconcConfig c = Some config ->
        forallb (readable (Reconciliation.is_newest version)) cands = true ->
        exists recs : list ResultRecord,
          Reconciliation._parseResponse c version obj
          = Js.Ok {| Result.totalItems := Z.of_nat (List.length cands);
                     Result.items := recs |}
          /\ Forall2 (fun item r => Result.details r = details_rule item)
                     cands recs).
Proof.
  intros Hcands. unfold Reconciliation._parseResponse. rewrite Hcands. split.
  - intros rs H.
    destruct (Reconciliation.records_of c _ cands) as [recs|] eqn:E; [|discriminate].
    injection H as <-. simpl. eapply records_of_details. exact E.
  - intros config Hc Hr.
    pose proof (records_of_readable c config _ cands Hc Hr) as E.
    rewrite E. eexists. split; [reflexivity|].
    eapply records_of_details. exact E.
Qed.

Lemma details_follow_rule_witness :
  Reconciliation._parseResponse legacy_people (Some "0.1.0")
    (Legacy (Some (Some [person_X; polymath; poet])))
  = Js.Ok
      {| Result.totalItems := 3;
         Result.items :=
           [{| Result.register := "people"; Result.id := "a";
               Result.label := "X";
               Result.type :=
                 TypeList [{| te_id := None; te_name := Some "Person" |}];
               Result.details := "Person";
               Result.score := None; Result.link := "a";
               Result.provider := "Reconciliation" |};
            {| Result.register := "people"; Result.id := "b";
               Result.label := "Y";
               Result.type :=
                 TypeList [{| te_id := Some "t1"; te_name := Some "Person" |};
                           {| te_id := None; te_name := Some "Author" |};
                           {| te_id := None; te_name := Some "Composer" |}];
               Result.details := "Person, Author, Composer";
               Result.score := None; Result.link := "b";
               Result.provider := "Reconciliation" |};
            {| Result.register := "people"; Result.id := "c";
               Result.label := "Z";
               Result.type :=
                 TypeList [{| te_id := None; te_name := Some "Person" |}];
               Result.details := "A poet";
               Result.score := None; Result.link := "c";
               Result.provider := "Reconciliation" |}] |}
  /\ List.map details_rule [person_X; polymath; poet]
     = ["Person"; "Person, Author, Composer"; "A poet"].
Proof.
  destruct (details_follow_rule legacy_people (Some "0.1.0")
              (Legacy (Some (Some [person_X; polymath; poet])))
              [person_X; polymath; poet] eq_refl)
    as [_ H].
  destruct (H _ eq_refl eq_refl) as [recs [Hp HF]].
  split; [|reflexivity].
  rewrite Hp. do 2 f_equal.
  inversion HF as [|x1 r1 l1 recs1 H1 HF1]; subst.
  inversion HF1 as [|x2 r2 l2 recs2 H2 HF2]; subst.
  inversion HF2 as [|x3 r3 l3 recs3 H3 HF3]; subst.
  inversion HF3; subst.
  vm_compute in Hp. now injection Hp as <- <- <-.
Defined.

(** A candidate with a description keeps it, whatever its types. *)
Example description_preferred :
  details_rule {| item_id := "b"; item_name := "Y";
                  item_description := Some "A poet";
                  item_type := Some [{| te_id := None; te_name := Some "Person" |}];
                  item_score := None |} = "A poet".
Proof. reflexivity. Qed.

(** ** Fetching one record *)

(** Dropping the prefix gives back the raw id of a prefixed one. *)
Lemma rawid_of_prefixed (c : Reconciliation.Service) (p raw : string) :
  Reconciliation._prefix c = Some p ->
  JsString.truthy p = true ->
  Reconciliation.rawid_of c (p +:+ "-" +:+ raw) = raw.
Proof.
  intros Hp Ht. unfold Reconciliation.rawid_of. rewrite Hp, Ht.
  rewrite <- string_app_assoc.
  replace (String.length p + 1)%nat with (String.length (p +:+ "-"))
    by (rewrite string_length_app; reflexivity).
  apply substring_from_app.
Qed.

(** X1. The external id of a record and the id its lookup works with: the
    prefix that [_parseResponse] puts in front of a candidate's id is what
    [info] and [getRecord] take off again, so the id of every record leads
    back to the candidate's own id, for every prefix setting (none, empty or
    any string) and every id. *)
Lemma prefix_round_trip (c : Reconciliation.Service) (raw : string) :
  Reconciliation.rawid_of c (Reconciliation.prefixed c raw) = raw.
Proof.
  unfold Reconciliation.prefixed.
  destruct (Reconciliation._prefix c) as [p|] eqn:Hp.
  - destruct (JsString.truthy p) eqn:Ht.
    + now apply rawid_of_prefixed.
    + unfold Reconciliation.rawid_of. now rewrite Hp, Ht.
  - unfold Reconciliation.rawid_of. now rewrite Hp.
Qed.

(** [getRecord] ends as the query for the stripped id ends. *)
Lemma getRecord_as_query (net : Network) (c : Reconciliation.Service)
    (key : string) (w : World) :
  Reconciliation.getRecord net c key w
  = match Reconciliation.query net c (Reconciliation.rawid_of c key) w with
    | (w', Fulfilled rs) => (w', Fulfilled (head (Result.items rs)))
    | (w', Rejected r) => (w', Rejected r)
    | (w', Pending) => (w', Pending)
    end.
Proof. reflexivity. Qed.

(** A query whose request is built, sent and answered with readable
    candidates. *)
Lemma query_readable (net : Network) (c : Reconciliation.Service)
    (config : Manifest) (key : string) (w : World) (qInit : RequestInit)
    (response : Response) (obj : Payload) (cands : list Candidate) :
  Reconciliation.ReconcConfig c = Some config ->
  Reconciliation.query_init c key = Js.Ok qInit ->
  net (Reconciliation.endpoint c) (Some qInit) = Fulfilled response ->
  json response = Fulfilled obj ->
  Reconciliation.candidates
    (Reconciliation.is_newest (Reconciliation.reconcVersion c)) obj = Js.Ok cands ->
  forallb (readable (Reconciliation.is_newest (Reconciliation.reconcVersion c)))
          cands = true ->
  Reconciliation.query net c key w
  = ({| innerHTML := innerHTML w;
        calls := calls w ++ [EvFetch (Reconciliation.endpoint c) (Some qInit)] |},
     Fulfilled
       {| Result.totalItems := Z.of_nat (List.length cands);
          Result.items :=
            List.map (expected_record c config
                        (Reconciliation.is_newest (Reconciliation.reconcVersion c)))
                     cands |}).
Proof.
  intros Hc Hq Hnet Hjson Hcands Hr.
  unfold Reconciliation.query. rewrite Hq. unfold_M. simpl.
  rewrite Hnet, Hjson. unfold Reconciliation._parseResponse.
  rewrite Hcands, (records_of_readable c config _ cands Hc Hr).
  reflexivity.
Qed.

(** The older variant does reject when the manifest has no view template,
    and asks the network nothing. *)
Lemma view_variant_without_view (net : Network) (c : Reconciliation.Service)
    (config : Manifest) (key : string) (w : World) :
  Reconciliation.ReconcConfig c = Some config ->
  view config = None ->
  ViewVariant.getRecord net c key w = (w, Rejected Js.NoReason).
Proof.
  intros Hc Hv. unfold ViewVariant.getRecord. now rewrite Hc, Hv.
Qed.

(** C3, the claim as stated fails. Without a view template in the manifest
    [getRecord] still fulfils with the first record of the query (its link
    is then the raw id), and when the query finds nothing it fulfils with
    [undefined]; it rejects in neither case. *)
Lemma getRecord_fulfils_without_view :
  snd (Reconciliation.getRecord (answering [person_X]) gnd_people "gnd-a" quiet)
  = Fulfilled
      (Some {| Result.register := "people"; Result.id := "gnd-a";
               Result.label := "X";
               Result.type := TypeList [{| te_id := None; te_name := Some "Person" |}];
               Result.details := "Person"; Result.score := None;
               Result.link := "a"; Result.provider := "Reconciliation" |})
  /\ snd (Reconciliation.getRecord (answering []) gnd_people "gnd-a" quiet)
     = Fulfilled None.
Proof. split; vm_compute; reflexivity. Qed.

(** C3, as amended. [getRecord(key)] takes the register prefix off the key
    (the first [prefix.length + 1] characters, when a prefix is configured),
    re-issues a query for the stripped id, and, when that query is answered
    with readable candidates, fulfils with the first result record of its
    item list, or with [undefined] when the list is empty. It does not look
    for a view template: without one the record's link is the raw id. When
    the query rejects, on whatever network, [getRecord] rejects with the
    same reason. *)
Theorem getRecord_first_record (net : Network) (c : Reconciliation.Service)
    (config : Manifest) (key : string) (w : World) (qInit : RequestInit)
    (response : Response) (obj : Payload) (cands : list Candidate) :
  Reconciliation.ReconcConfig c = Some config ->
  Reconciliation.query_init c (Reconciliation.rawid_of c key) = Js.Ok qInit ->
  net (Reconciliation.endpoint c) (Some qInit) = Fulfilled response ->
  json response = Fulfilled obj ->
  Reconciliation.candidates
    (Reconciliation.is_newest (Reconciliation.reconcVersion c)) obj = Js.Ok cands ->
  forallb (readable (Reconciliation.is_newest (Reconciliation.reconcVersion c)))
          cands = true ->
  Reconciliation.getRecord net c key w
  = ({| innerHTML := innerHTML w;
        calls := calls w ++ [EvFetch (Reconciliation.endpoint c) (Some qInit)] |},
     Fulfilled
       match cands with
       | [] => None
       | item :: _ =>
           Some (expected_record c config
                   (Reconciliation.is_newest (Reconciliation.reconcVersion c)) item)
       end)
  /\ (forall p raw : string,
        Reconciliation._prefix c = Some p -> JsString.truthy p = true ->
        key = p +:+ "-" +:+ raw -> Reconciliation.rawid_of c key = raw)
  /\ (Reconciliation._prefix c = None -> Reconciliation.rawid_of c key = key)
  /\ (forall (other : Network) (r : Js.reason),
        snd (Reconciliation.query other c (Reconciliation.rawid_of c key) w)
        = Rejected r ->
        snd (Reconciliation.getRecord other c key w) = Rejected r).
Proof.
  intros Hc Hq Hnet Hjson Hcands Hr. split; [|split; [|split]].
  - rewrite getRecord_as_query.
    rewrite (query_readable net c config _ w qInit response obj cands
               Hc Hq Hnet Hjson Hcands Hr).
    simpl. destruct cands; reflexivity.
  - intros p raw Hp Ht ->. now apply rawid_of_prefixed.
  - intros Hp. unfold Reconciliation.rawid_of. now rewrite Hp.
  - intros other r Hrej. rewrite getRecord_as_query.
    destruct (Reconciliation.query other c (Reconciliation.rawid_of c key) w)
      as [w' [rs| r' |]]; simpl in *; congruence.
Qed.

Lemma getRecord_first_record_witness :
  Reconciliation.getRecord (answering [person_X]) gnd_people "gnd-a" quiet
  = ({| innerHTML := "";
        calls := [EvFetch "https://example.org/reconcile"
                    (Some (Reconciliation.qRequestInit (Some "0.1.0") "a"))] |},
     Fulfilled
       (Some (expected_record gnd_people
                {| versions := None; preview := None; view := None |}
                false person_X)))
  /\ Reconciliation.rawid_of gnd_people "gnd-a" = "a".
Proof.
  destruct (getRecord_first_record (answering [person_X]) gnd_people
              {| versions := None; preview := None; view := None |}
              "gnd-a" quiet
              (Reconciliation.qRequestInit (Some "0.1.0") "a")
              {| ok := true; status := 200;
                 text := Rejected (Js.type_error "body stream already read");
                 json := Fulfilled (Legacy (Some (Some [person_X]))) |}
              (Legacy (Some (Some [person_X]))) [person_X]
              eq_refl eq_refl eq_refl eq_refl eq_refl eq_refl)
    as [Hrun [Hstrip _]].
  split.
  - exact Hrun.
  - apply (Hstrip "gnd" "a"); reflexivity.
Defined.

(** ** The composite connector: [query] *)

Lemma child_calls_cons (ev : nat -> Event) (i n : nat) :
  child_calls ev i (S n) = ev i :: child_calls ev (S i) n.
Proof. reflexivity. Qed.

Lemma child_calls_snoc (ev : nat -> Event) (i n : nat) :
  child_calls ev i (S n) = child_calls ev i n ++ [ev (i + n)%nat].
Proof.
  unfold child_calls. rewrite seq_S, List.map_app. reflexivity.
Qed.

Lemma collect_local_from (c : Custom.Composite) (found : list LocalItem)
    (results : list ResultRecord) (localResults : gset string) :
  fold_left
    (fun '(results, localResults) item =>
       (results ++ [Custom.local_record c item], localResults ∪ {[local_id item]}))
    found (results, localResults)
  = (results ++ List.map (Custom.local_record c) found,
     localResults ∪ list_to_set (List.map local_id found)).
Proof.
  revert results localResults.
  induction found as [|item found IH]; intros results localResults; simpl.
  - rewrite app_nil_r. f_equal. symmetry. apply union_empty_r_L.
  - rewrite IH, <- app_assoc. simpl. f_equal.
    symmetry. apply (assoc_L (∪)).
Qed.

(** After the [forEach], [results] holds the local records in order and
    [localResults] the set of their ids. *)
Lemma collect_local_spec (c : Custom.Composite) (found : list LocalItem) :
  Custom.collect_local c found
  = (List.map (Custom.local_record c) found,
     list_to_set (List.map local_id found)).
Proof.
  unfold Custom.collect_local. rewrite collect_local_from. simpl.
  f_equal. apply union_empty_l_L.
Qed.

Lemma filter_not_local (found : list LocalItem) (dr : ResultSet) :
  filter (fun result : ResultRecord =>
            Result.id result ∉ (list_to_set (List.map local_id found) : gset string))
         (Result.items dr)
  = not_local (List.map local_id found) dr.
Proof.
  unfold not_local. apply list_filter_iff. intros r.
  now rewrite elem_of_list_to_set.
Qed.

(** The loop over children that all answer. *)
Lemma query_connectors_fulfilled (key : string) (found : list LocalItem)
    (connectors : list Connector.t) (drs : list ResultSet) :
  Forall2 (fun connector dr => Connector.query connector key = Fulfilled dr)
          connectors drs ->
  forall (i : nat) (results : list ResultRecord) (totalItems : Z) (w : World),
    Custom.query_connectors key (list_to_set (List.map local_id found)) i
      connectors results totalItems w
    = ({| innerHTML := innerHTML w;
          calls := calls w
                   ++ child_calls (fun j => EvQuery j key) i (List.length connectors) |},
       Fulfilled
         (results ++ concat (List.map (not_local (List.map local_id found)) drs),
          (totalItems + reported drs)%Z)).
Proof.
  induction 1 as [|connector dr connectors drs Hq _ IH];
    intros i results totalItems w.
  - simpl. unfold child_calls, reported. simpl.
    rewrite !app_nil_r, Z.add_0_r. destruct w; reflexivity.
  - simpl. unfold Custom.call_query. unfold_M. simpl. rewrite Hq.
    rewrite IH. simpl. rewrite filter_not_local, child_calls_cons.
    rewrite <- !app_assoc. simpl.
    unfold reported; simpl. fold (reported drs).
    rewrite Z.add_assoc. reflexivity.
Qed.

(** The loop over children of which one rejects: the loop ends there, with
    the children after it never asked. *)
Lemma query_connectors_rejected (key : string) (localResults : gset string)
    (pre : list Connector.t) (drs : list ResultSet) (bad : Connector.t)
    (post : list Connector.t) (r : Js.reason) :
  Forall2 (fun connector dr => Connector.query connector key = Fulfilled dr)
          pre drs ->
  Connector.query bad key = Rejected r ->
  forall (i : nat) (results : list ResultRecord) (totalItems : Z) (w : World),
    Custom.query_connectors key localResults i (pre ++ bad :: post)
      results totalItems w
    = ({| innerHTML := innerHTML w;
          calls := calls w
                   ++ child_calls (fun j => EvQuery j key) i (S (List.length pre)) |},
       Rejected r).
Proof.
  intros Hpre Hbad.
  induction Hpre as [|connector dr pre drs Hq _ IH];
    intros i results totalItems w.
  - simpl. unfold Custom.call_query. unfold_M. simpl. rewrite Hbad.
    reflexivity.
  - simpl. unfold Custom.call_query. unfold_M. simpl. rewrite Hq.
    rewrite IH. simpl. rewrite (child_calls_cons _ i).
    rewrite <- !app_assoc. reflexivity.
Qed.

(** C1. When the local register answers the search with the list [found]
    and every child answers its query, [query(key)] fulfils with: as items,
    the local records in order (each entry of [found] with its id, label,
    link and details, under the connector's register and the provider
    [local]), followed, for each child in configured order, by exactly those
    of the child's items whose id is not the id of a local record (the
    children's items are not compared with each other); as [totalItems], the
    number of local records plus the sum of the counts the children report,
    filtered items included. The children are asked one after the other, in
    configured order. *)
Theorem query_merges_local_and_children (net : Network) (c : Custom.Composite)
    (key : string) (w : World) (response : Response) (found : list LocalItem)
    (drs : list ResultSet) :
  net (Custom.search_url c key) None = Fulfilled response ->
  json response = Fulfilled (Found found) ->
  Forall2 (fun connector dr => Connector.query connector key = Fulfilled dr)
          (Custom._connectors c) drs ->
  Custom.query net c key w
  = ({| innerHTML := innerHTML w;
        calls := calls w
                 ++ EvFetch (Custom.search_url c key) None
                    :: child_calls (fun j => EvQuery j key) 0
                         (List.length (Custom._connectors c)) |},
     Fulfilled
       {| Result.totalItems := (Z.of_nat (List.length found) + reported drs)%Z;
          Result.items :=
            List.map (local_result (Custom._register c)) found
            ++ concat (List.map (not_local (List.map local_id found)) drs) |}).
Proof.
  intros Hnet Hjson Hall.
  unfold Custom.query. unfold_M. simpl. rewrite Hnet, Hjson.
  rewrite collect_local_spec. simpl.
  rewrite (query_connectors_fulfilled key found _ drs Hall). simpl.
  rewrite <- app_assoc.
  change (List.map (Custom.local_record c) found)
    with (List.map (local_result (Custom._register c)) found).
  reflexivity.
Qed.

Lemma query_merges_local_and_children_witness :
  Custom.query (local_answers [local_1]) (register_with [child_1_2]) "Ada" quiet
  = ({| innerHTML := "";
        calls :=
          [EvFetch
             "https://example.org/exist/apps/tei-publisher/api/register/search/people?query=Ada"
             None;
           EvQuery 0 "Ada"] |},
     Fulfilled
       {| Result.totalItems := 3;
          Result.items :=
            [{| Result.register := "people"; Result.id := "1";
                Result.label := "Ada"; Result.type := TypeAbsent;
                Result.details := "local entry"; Result.score := None;
                Result.link := "/people/1"; Result.provider := "local" |};
             {| Result.register := "people"; Result.id := "2";
                Result.label := "Ada"; Result.type := TypeAbsent;
                Result.details := ""; Result.score := None;
                Result.link := "2"; Result.provider := "Reconciliation" |}] |})
  /\ snd (Custom.query (local_answers [local_1])
            (register_with [child_1_2; child_2_3]) "Ada" quiet)
     = Fulfilled
         {| Result.totalItems := 5;
            Result.items :=
              [{| Result.register := "people"; Result.id := "1";
                  Result.label := "Ada"; Result.type := TypeAbsent;
                  Result.details := "local entry"; Result.score := None;
                  Result.link := "/people/1"; Result.provider := "local" |};
               remote "2"; remote "2"; remote "3"] |}.
Proof.
  split.
  - rewrite (query_merges_local_and_children (local_answers [local_1])
               (register_with [child_1_2]) "Ada" quiet
               (found_response [local_1]) [local_1]
               [{| Result.totalItems := 2;
                   Result.items := [remote "1"; remote "2"] |}]).
    + vm_compute. reflexivity.
    + reflexivity.
    + reflexivity.
    + repeat constructor.
  - rewrite (query_merges_local_and_children (local_answers [local_1])
               (register_with [child_1_2; child_2_3]) "Ada" quiet
               (found_response [local_1]) [local_1]
               [{| Result.totalItems := 2;
                   Result.items := [remote "1"; remote "2"] |};
                {| Result.totalItems := 2;
                   Result.items := [remote "2"; remote "3"] |}]).
    + vm_compute. reflexivity.
    + reflexivity.
    + reflexivity.
    + repeat constructor.
Defined.

(** C2, where the code departs from the claim. When a child's query
    rejects, the loop in [query] stops there: [resolve] is never called, and
    since nothing calls [reject] either, the promise of the composite query
    stays pending. The children after the failing one are not asked. *)
Theorem query_pending_when_child_rejects (net : Network) (c : Custom.Composite)
    (key : string) (w : World) (response : Response) (found : list LocalItem)
    (pre : list Connector.t) (drs : list ResultSet) (bad : Connector.t)
    (post : list Connector.t) (r : Js.reason) :
  net (Custom.search_url c key) None = Fulfilled response ->
  json response = Fulfilled (Found found) ->
  Custom._connectors c = pre ++ bad :: post ->
  Forall2 (fun connector dr => Connector.query connector key = Fulfilled dr)
          pre drs ->
  Connector.query bad key = Rejected r ->
  Custom.query net c key w
  = ({| innerHTML := innerHTML w;
        calls := calls w
                 ++ EvFetch (Custom.search_url c key) None
                    :: child_calls (fun j => EvQuery j key) 0 (S (List.length pre)) |},
     Pending).
Proof.
  intros Hnet Hjson Hcs Hpre Hbad.
  unfold Custom.query. unfold_M. simpl. rewrite Hnet, Hjson.
  rewrite collect_local_spec, Hcs. simpl.
  rewrite (query_connectors_rejected key _ pre drs bad post r Hpre Hbad). simpl.
  rewrite <- app_assoc. reflexivity.
Qed.

Lemma query_pending_when_child_rejects_witness :
  Custom.query (local_answers [local_1]) (register_with [child_down; child_1_2])
    "Ada" quiet
  = ({| innerHTML := "";
        calls := [EvFetch
                    (Custom.search_url (register_with [child_down; child_1_2]) "Ada")
                    None;
                  EvQuery 0 "Ada"] |},
     Pending).
Proof.
  apply (query_pending_when_child_rejects (local_answers [local_1])
           (register_with [child_down; child_1_2]) "Ada" quiet
           (found_response [local_1]) [local_1]
           [] [] child_down [child_1_2] (Js.type_error "Failed to fetch")).
  - reflexivity.
  - reflexivity.
  - reflexivity.
  - constructor.
  - reflexivity.
Defined.

(** ** The composite connector: [select] *)

Lemma logged_logged (w : World) (e1 e2 : list Event) :
  logged (logged w e1) e2 = logged w (e1 ++ e2).
Proof. unfold logged; simpl. now rewrite <- app_assoc. Qed.

(** The loop of [select] passes over the children that decline, asking each
    of them, and goes on with a falsy entry. *)
Lemma find_entry_declined (id : string) (pre rest : list Connector.t) :
  forallb (declines id) pre = true ->
  forall (i : nat) (entry : value) (w : World),
    Js.truthy entry = false ->
    exists entry' : value,
      Js.truthy entry' = false
      /\ Custom.find_entry id i (pre ++ rest) entry w
         = Custom.find_entry id (i + List.length pre) rest entry'
             (logged w (child_calls (fun j => EvGetRecord j id) i (List.length pre))).
Proof.
  induction pre as [|connector pre IH]; intros Hpre i entry w Hentry.
  - exists entry. split; [exact Hentry|].
    simpl. rewrite Nat.add_0_r. unfold logged, child_calls; simpl.
    rewrite app_nil_r. destruct w; reflexivity.
  - simpl in Hpre. apply andb_true_iff in Hpre as [Hd Hpre].
    unfold declines in Hd.
    assert (Hstep : exists e : value,
               Js.truthy e = false
               /\ Custom.find_entry id i ((connector :: pre) ++ rest) entry w
                  = Custom.find_entry id (S i) (pre ++ rest) e
                      (logged w [EvGetRecord i id])).
    { simpl. unfold Custom.call_getRecord. unfold_M. simpl.
      destruct (Connector.getRecord connector id) as [e| r |]; [| |discriminate].
      - exists e. apply negb_true_iff in Hd. rewrite Hd. split; reflexivity.
      - exists VNull. split; reflexivity. }
    destruct Hstep as [e [He Hstep]].
    destruct (IH Hpre (S i) e (logged w [EvGetRecord i id]) He) as [e' [He' Hrest]].
    exists e'. split; [exact He'|].
    rewrite Hstep, Hrest, logged_logged. simpl.
    rewrite Nat.add_succ_r. reflexivity.
Qed.

(** C5. [select(item)] asks the children for the record of [item.id] one
    after the other in configured order. The children that decline (a
    rejection or a falsy answer) are passed over; at the first child that
    yields a record the loop stops, and the record is sent to the local
    register: a POST of its JSON text to
    [<endpoint>/api/register/<register>/<item.id, percent-encoded>]; the
    answer's JSON is what [select] fulfils with, and a response that is not
    ok rejects with an error whose message is the response status. When
    every child declines, nothing is sent and [select] rejects with an error
    whose message contains [item.id]. *)
Theorem select_first_record (net : Network) (c : Custom.Composite)
    (id : string) (w : World) (pre rest : list Connector.t) :
  Custom._connectors c = pre ++ rest ->
  forallb (declines id) pre = true ->
  match rest with
  | [] =>
      Custom.select net c id w
      = (logged w (child_calls (fun j => EvGetRecord j id) 0 (List.length pre)),
         Rejected (Js.JsError "Error" ("No record found for ID " +:+ id)))
      /\ JsString.includes id ("No record found for ID " +:+ id) = true
  | hit :: _ =>
      forall entry : value,
        Connector.getRecord hit id = Fulfilled entry ->
        Js.truthy entry = true ->
        Custom.select net c id w
        = (logged w
             (child_calls (fun j => EvGetRecord j id) 0 (S (List.length pre))
              ++ [EvFetch (register_entry c id) (Some (store_request entry))]),
           match net (register_entry c id) (Some (store_request entry)) with
           | Fulfilled response =>
               if ok response then json response
               else Rejected (Js.JsError "Error" (JsString.of_Z (status response)))
           | Rejected r => Rejected r
           | Pending => Pending
           end)
  end.
Proof.
  intros Hcs Hpre.
  destruct (find_entry_declined id pre rest Hpre 0 VUndefined w eq_refl)
    as [e [He Hrun]].
  simpl in Hrun.
  destruct rest as [|hit post].
  - split; [|apply includes_app_r].
    unfold Custom.select. rewrite Hcs.
    unfold mbind, M_bind. rewrite Hrun. simpl. unfold_M. simpl.
    rewrite He. reflexivity.
  - intros entry Hhit Htruthy.
    change (register_entry c id) with (Custom.entry_url c id).
    change (store_request entry) with (Custom.post_init entry).
    rewrite child_calls_snoc.
    unfold Custom.select. rewrite Hcs.
    unfold mbind at 1. unfold M_bind at 1. rewrite Hrun. simpl.
    unfold Custom.call_getRecord. unfold_M. simpl.
    rewrite Hhit, Htruthy. simpl. rewrite Htruthy. simpl.
    unfold logged; simpl. rewrite <- !app_assoc. simpl.
    destruct (net (Custom.entry_url c id) (Some (Custom.post_init entry)))
      as [response| r |]; try reflexivity.
    destruct (ok response); reflexivity.
Qed.

Lemma select_first_record_witness :
  Custom.select refusing
    (register_with [child_down; child_knows; child_1_2]) "gnd/1" quiet
  = ({| innerHTML := "";
        calls :=
          [EvGetRecord 0 "gnd/1"; EvGetRecord 1 "gnd/1";
           EvFetch
             "https://example.org/exist/apps/tei-publisher/api/register/people/gnd%2F1"
             (Some {| method := "POST"; mode := Some "cors";
                      credentials := Some "same-origin";
                      headers := [("Content-Type", "application/json")];
                      body := VStr ("{" +:+ in_quotes "id" +:+ ":"
                                    +:+ in_quotes "gnd/1" +:+ ","
                                    +:+ in_quotes "label" +:+ ":"
                                    +:+ in_quotes "Ada" +:+ "}") |})] |},
     Rejected (Js.JsError "Error" "403"))
  /\ snd (Custom.select (object_answers [("stored", VBool true)])
            (register_with [child_down; child_knows; child_1_2]) "gnd/1" quiet)
     = Fulfilled (Raw (VObj [("stored", VBool true)]))
  /\ Custom.select refusing (register_with [child_down; child_1_2]) "gnd-1" quiet
     = ({| innerHTML := "";
           calls := [EvGetRecord 0 "gnd-1"; EvGetRecord 1 "gnd-1"] |},
        Rejected (Js.JsError "Error" "No record found for ID gnd-1")).
Proof.
  split; [|split].
  - rewrite (select_first_record refusing
               (register_with [child_down; child_knows; child_1_2]) "gnd/1" quiet
               [child_down] [child_knows; child_1_2] eq_refl eq_refl
               (VObj [("id", VStr "gnd/1"); ("label", VStr "Ada")])
               eq_refl eq_refl).
    reflexivity.
  - rewrite (select_first_record (object_answers [("stored", VBool true)])
               (register_with [child_down; child_knows; child_1_2]) "gnd/1" quiet
               [child_down] [child_knows; child_1_2] eq_refl eq_refl
               (VObj [("id", VStr "gnd/1"); ("label", VStr "Ada")])
               eq_refl eq_refl).
    reflexivity.
  - destruct (select_first_record refusing
                (register_with [child_down; child_1_2]) "gnd-1" quiet
                [child_down; child_1_2] [] eq_refl eq_refl) as [Hrun _].
    exact Hrun.
Defined.

(** ** The composite connector: [info] *)

(** The loop of [info] runs to its end over children that settle: it calls
    every one of them, whatever the fate of the promise already is, and the
    fate is decided by the first truthy descriptor only if it was still
    open. *)
Lemma info_connectors_run (key : string) (connectors : list Connector.t) :
  Forall (info_settles key) connectors ->
  forall (i : nat) (e : Exec value),
    Custom.info_connectors key i connectors e
    = ({| world :=
            {| innerHTML := container_after key connectors (innerHTML (world e));
               calls := calls (world e)
                        ++ child_calls (fun j => EvInfo j key) i
                             (List.length connectors) |};
          fate :=
            match fate e with
            | Some f => Some f
            | None => Fulfilled <$> first_descriptor key connectors
                                      (innerHTML (world e))
            end |},
       Fulfilled tt).
Proof.
  induction 1 as [|connector connectors Hs _ IH]; intros i e.
  - simpl. unfold child_calls; simpl. rewrite app_nil_r.
    destruct e as [[html cs] [f|]]; reflexivity.
  - change (List.length (connector :: connectors))
      with (S (List.length connectors)).
    rewrite child_calls_cons.
    change (Custom.info_connectors key i (connector :: connectors))
      with (try_catch
              (cr ← lift (Custom.call_info i connector key);
               if Js.truthy cr then resolve cr else mret tt)
              (fun _ => mret tt) ;;
            Custom.info_connectors key (S i) connectors).
    specialize (Hs (innerHTML (world e))).
    unfold Custom.call_info, Custom.run_info. unfold_M. simpl.
    destruct (Connector.info connector key (innerHTML (world e)))
      as [html' out] eqn:Hinfo.
    simpl in Hs.
    destruct out as [cr| r |]; [| |contradiction]; simpl.
    + destruct (Js.truthy cr); simpl; rewrite IH; simpl;
        rewrite <- app_assoc; destruct (fate e); reflexivity.
    + rewrite IH; simpl. rewrite <- app_assoc. destruct (fate e); reflexivity.
Qed.

(** C10. After the local register has answered 404, [info] calls the [info]
    of every child, in configured order and on the same container, also
    after a child's descriptor has resolved the promise: the container ends
    as the last child left it, while the promise keeps the first truthy
    descriptor produced (and is rejected when there is none). *)
Theorem info_calls_every_child (net : Network) (c : Custom.Composite)
    (key : string) (w : World) (response : Response) :
  JsString.truthy key = true ->
  net (Custom.entry_url c key) None = Fulfilled response ->
  ok response = false ->
  status response = 404%Z ->
  Forall (info_settles key) (Custom._connectors c) ->
  Custom.info net c key w
  = ({| innerHTML := container_after key (Custom._connectors c) (innerHTML w);
        calls := calls w
                 ++ EvFetch (Custom.entry_url c key) None
                    :: child_calls (fun j => EvInfo j key) 0
                         (List.length (Custom._connectors c)) |},
     match first_descriptor key (Custom._connectors c) (innerHTML w) with
     | Some cr => Fulfilled cr
     | None => Rejected Js.NoReason
     end).
Proof.
  intros Hkey Hnet Hok Hstatus Hall.
  unfold Custom.info. rewrite Hkey. simpl.
  unfold new_Promise, mbind, M_bind, lift, fetch, log, await. simpl.
  rewrite Hnet, Hok, Hstatus. simpl.
  rewrite (info_connectors_run key _ Hall). simpl.
  rewrite <- app_assoc. simpl.
  destruct (first_descriptor key (Custom._connectors c) (innerHTML w));
    reflexivity.
Qed.

Lemma info_calls_every_child_witness :
  Custom.info not_found
    (register_with [child_writes "<p>one</p>" "1"; child_writes "<p>two</p>" "2"])
    "gnd-1" quiet
  = ({| innerHTML := "<p>two</p>";
        calls := [EvFetch
                    (Custom.entry_url
                       (register_with [child_writes "<p>one</p>" "1";
                                       child_writes "<p>two</p>" "2"]) "gnd-1")
                    None;
                  EvInfo 0 "gnd-1"; EvInfo 1 "gnd-1"] |},
     Fulfilled (VObj [("id", VStr "1")])).
Proof.
  apply (info_calls_every_child not_found
           (register_with [child_writes "<p>one</p>" "1";
                           child_writes "<p>two</p>" "2"])
           "gnd-1" quiet
           {| ok := false; status := 404; text := Fulfilled "";
              json := Rejected (Js.JsError "SyntaxError"
                                  "Unexpected end of JSON input") |}).
  - reflexivity.
  - reflexivity.
  - reflexivity.
  - reflexivity.
  - repeat constructor; intros html; simpl; discriminate.
Defined.

(** * Further properties of the connectors *)

(** ** The reconciliation connector: requests *)

Lemma logged_nil (w : World) : logged w [] = w.
Proof. unfold logged. rewrite app_nil_r. destruct w; reflexivity. Qed.

(** Whatever the network answers, a query whose request can be built leaves
    the container alone and makes one call: the request to the endpoint. *)
Lemma query_world (net : Network) (c : Reconciliation.Service) (key : string)
    (w : World) (q : RequestInit) :
  Reconciliation.query_init c key = Js.Ok q ->
  fst (Reconciliation.query net c key w)
  = logged w [EvFetch (Reconciliation.endpoint c) (Some q)].
Proof.
  intros Hq. unfold Reconciliation.query. rewrite Hq. unfold_M. simpl.
  destruct (net (Reconciliation.endpoint c) (Some q)) as [response| r |];
    try reflexivity.
  destruct (json response) as [obj| r |]; try reflexivity.
  destruct (Reconciliation._parseResponse c _ obj); reflexivity.
Qed.

Lemma stringified_newest (key : string) :
  Reconciliation.stringified
    (VObj [("queries", VArr [VObj [("query", VStr key)]])])
  = VStr (newest_body key).
Proof.
  unfold Reconciliation.stringified, newest_body. simpl.
  rewrite !string_app_assoc. reflexivity.
Qed.

Lemma stringified_legacy (key : string) :
  Reconciliation.queries_concat
    (Reconciliation.stringified (VObj [("q0", VObj [("query", VStr key)])]))
  = VStr (legacy_body key).
Proof.
  unfold Reconciliation.stringified, Reconciliation.queries_concat, legacy_body.
  simpl. rewrite !string_app_assoc. reflexivity.
Qed.

(** X2. With the newest version negotiated and no process language set,
    [query(key)] makes exactly one call, whatever the network answers: a POST
    to the endpoint with [Content-Type: application/json], whose body is the
    JSON text [{"queries":[{"query":key}]}] with the key as a JSON string,
    and with an [Accept-Language] header exactly when the accept-language
    hint is set. The container is not touched. *)
Theorem query_sends_json_request (net : Network) (c : Reconciliation.Service)
    (key : string) (w : World) :
  Reconciliation.is_newest (Reconciliation.reconcVersion c) = true ->
  JsString.truthy_attr (Reconciliation.processLang c) = false ->
  fst (Reconciliation.query net c key w)
  = {| innerHTML := innerHTML w;
       calls :=
         calls w
         ++ [EvFetch (Reconciliation.endpoint c)
               (Some {| method := "POST"; mode := None; credentials := None;
                        headers :=
                          [("Accept", "application/json");
                           ("Content-Type", "application/json")]
                          ++ (if JsString.truthy_attr (Reconciliation.acceptLang c)
                              then [("Accept-Language",
                                     Reconciliation.attr_text
                                       (Reconciliation.acceptLang c))]
                              else []);
                        body := VStr (newest_body key) |})] |}.
Proof.
  intros Hv Hp.
  rewrite (query_world net c key w _ (query_init_newest c key Hv Hp)).
  rewrite stringified_newest. reflexivity.
Qed.

Lemma query_sends_json_request_witness :
  fst (Reconciliation.query unreachable gnd_previews "Ada Lovelace" quiet)
  = {| innerHTML := "";
       calls :=
         [EvFetch "https://example.org/reconcile"
            (Some {| method := "POST"; mode := None; credentials := None;
                     headers := [("Accept", "application/json");
                                 ("Content-Type", "application/json");
                                 ("Accept-Language", "en")];
                     body := VStr (newest_body "Ada Lovelace") |})] |}.
Proof.
  apply (query_sends_json_request unreachable gnd_previews "Ada Lovelace" quiet);
    reflexivity.
Defined.

(** X3. For every negotiated version other than the newest (no version at
    all included), [query(key)] makes exactly one call, whatever the network
    answers: a POST to the endpoint with
    [Content-Type: application/x-www-form-urlencoded] whose body is
    [queries=] followed by the JSON text [{"q0":{"query":key}}]; the JSON
    text is not percent-encoded, and neither language hint appears in the
    request. *)
Theorem query_sends_legacy_request (net : Network) (c : Reconciliation.Service)
    (key : string) (w : World) :
  Reconciliation.is_newest (Reconciliation.reconcVersion c) = false ->
  fst (Reconciliation.query net c key w)
  = {| innerHTML := innerHTML w;
       calls :=
         calls w
         ++ [EvFetch (Reconciliation.endpoint c)
               (Some {| method := "POST"; mode := None; credentials := None;
                        headers :=
                          [("Accept", "application/json");
                           ("Content-Type", "application/x-www-form-urlencoded")];
                        body := VStr (legacy_body key) |})] |}.
Proof.
  intros Hv.
  rewrite (query_world net c key w _ (query_init_legacy c key Hv)).
  rewrite stringified_legacy. reflexivity.
Qed.

Lemma query_sends_legacy_request_witness :
  fst (Reconciliation.query unreachable hinted_legacy "Ada & Co" quiet)
  = {| innerHTML := "";
       calls :=
         [EvFetch "https://example.org/reconcile"
            (Some {| method := "POST"; mode := None; credentials := None;
                     headers :=
                       [("Accept", "application/json");
                        ("Content-Type", "application/x-www-form-urlencoded")];
                     body := VStr (legacy_body "Ada & Co") |})] |}.
Proof.
  apply (query_sends_legacy_request unreachable hinted_legacy "Ada & Co" quiet).
  reflexivity.
Defined.

(** ** The reconciliation connector: the answer *)

Lemma records_of_shape (c : Reconciliation.Service) (newest : bool)
    (cands : list Candidate) (recs : list ResultRecord) :
  Reconciliation.records_of c newest cands = Js.Ok recs ->
  List.map Result.id recs
  = List.map (fun item => Reconciliation.prefixed c (item_id item)) cands
  /\ List.map Result.label recs = List.map item_name cands
  /\ Forall (fun r => Result.register r = Reconciliation._register c
                      /\ Result.provider r = "Reconciliation") recs.
Proof.
  revert recs. induction cands as [|item cands IH]; simpl; intros recs H.
  - injection H as <-. repeat split; constructor.
  - destruct (Reconciliation.record_of c newest item) as [r|] eqn:E; [|discriminate].
    destruct (Reconciliation.records_of c newest cands) as [rs|]; [|discriminate].
    injection H as <-.
    destruct (IH rs eq_refl) as [Hid [Hlabel Hall]].
    unfold Reconciliation.record_of in E.
    destruct (Reconciliation.view_of c item); [|discriminate].
    destruct (Reconciliation.description_of item); [|discriminate].
    destruct (if newest then _ else _); [|discriminate].
    injection E as <-. simpl. rewrite Hid, Hlabel.
    repeat split. constructor; [split; reflexivity | exact Hall].
Qed.

(** X4. Whenever [_parseResponse] returns, in either protocol variant, it
    has produced exactly one record per candidate of the answer, in the
    answer's order: [totalItems] is the number of items returned (not a
    total the server reports), the ids are the candidates' ids with the
    register prefix in front, the labels are the candidates' names, and
    every record carries the connector's register and the provider
    [Reconciliation]. *)
Theorem parseResponse_one_record_per_candidate (c : Reconciliation.Service)
    (version : option string) (obj : Payload) (rs : ResultSet) :
  Reconciliation._parseResponse c version obj = Js.Ok rs ->
  exists cands : list Candidate,
    Reconciliation.candidates (Reconciliation.is_newest version) obj = Js.Ok cands
    /\ Result.totalItems rs = Z.of_nat (List.length (Result.items rs))
    /\ List.length (Result.items rs) = List.length cands
    /\ List.map Result.id (Result.items rs)
       = List.map (fun item => Reconciliation.prefixed c (item_id item)) cands
    /\ List.map Result.label (Result.items rs) = List.map item_name cands
    /\ Forall (fun r => Result.register r = Reconciliation._register c
                        /\ Result.provider r = "Reconciliation")
              (Result.items rs).
Proof.
  unfold Reconciliation._parseResponse. intros H.
  destruct (Reconciliation.candidates _ obj) as [cands|]; [|discriminate].
  destruct (Reconciliation.records_of c _ cands) as [recs|] eqn:E; [|discriminate].
  injection H as <-. simpl.
  destruct (records_of_shape c _ cands recs E) as [Hid [Hlabel Hall]].
  assert (Hlen : List.length recs = List.length cands).
  { rewrite <- (List.length_map Result.id recs), Hid. apply List.length_map. }
  exists cands. rewrite Hlen. repeat split; assumption.
Qed.

Lemma parseResponse_one_record_per_candidate_witness :
  exists cands : list Candidate,
    Reconciliation.candidates false (Legacy (Some (Some [person_X; person_X])))
    = Js.Ok cands
    /\ Result.totalItems
         {| Result.totalItems := 2;
            Result.items :=
              List.map (expected_record gnd_people
                          {| versions := None; preview := None; view := None |}
                          false) [person_X; person_X] |} = 2%Z
    /\ List.map Result.id
         (List.map (expected_record gnd_people
                      {| versions := None; preview := None; view := None |}
                      false) [person_X; person_X])
       = ["gnd-a"; "gnd-a"].
Proof.
  destruct (parseResponse_one_record_per_candidate gnd_people (Some "0.1.0")
              (Legacy (Some (Some [person_X; person_X])))
              {| Result.totalItems := 2;
                 Result.items :=
                   List.map (expected_record gnd_people
                               {| versions := None; preview := None; view := None |}
                               false) [person_X; person_X] |}
              eq_refl)
    as [cands [Hc [Ht [_ [Hid _]]]]].
  exists cands. split; [exact Hc | split; [exact Ht |]].
  injection Hc as <-. exact Hid.
Defined.

(** ** The reconciliation connector: the preview *)

(** X5. For a non-empty id and a manifest with a preview template,
    [info(id, container)] requests the template's URL with the id, prefix
    taken off and percent-encoded, in place of [{{id}}]; when the text of
    the response arrives it becomes the container's content as it is, and
    the promise fulfils with the descriptor [{id}] whose id is the raw id
    with the register prefix in front again. *)
Theorem info_with_preview (net : Network) (c : Reconciliation.Service)
    (config : Manifest) (t : Template) (id : string) (w : World)
    (response : Response) (output : string) :
  JsString.truthy id = true ->
  Reconciliation.ReconcConfig c = Some config ->
  preview config = Some t ->
  net (preview_url c t id) None = Fulfilled response ->
  text response = Fulfilled output ->
  Reconciliation.info net c id w
  = ({| innerHTML := output;
        calls := calls w ++ [EvFetch (preview_url c t id) None] |},
     Fulfilled
       (VObj [("id", VStr (Reconciliation.prefixed c
                             (Reconciliation.rawid_of c id)))])).
Proof.
  intros Hid Hc Hp Hnet Htext.
  unfold Reconciliation.info. rewrite Hid, Hc, Hp. simpl.
  unfold_M. simpl. fold (preview_url c t id).
  rewrite Hnet, Htext. reflexivity.
Qed.

Lemma info_with_preview_witness :
  Reconciliation.info (text_answers "<p>Ada</p>") gnd_previews "gnd-11 85" quiet
  = ({| innerHTML := "<p>Ada</p>";
        calls := [EvFetch "https://example.org/preview?id=11%2085" None] |},
     Fulfilled (VObj [("id", VStr "gnd-11 85")])).
Proof.
  apply (info_with_preview (text_answers "<p>Ada</p>") gnd_previews
           (Reconciliation.normalizeManifest Semver.valid
              {| versions := Some ["0.3-alpha"; "0.1"];
                 preview := Some {| url := "https://example.org/preview?id={{id}}" |};
                 view := None |})
           {| url := "https://example.org/preview?id={{id}}" |}
           "gnd-11 85" quiet
           {| ok := true; status := 200; text := Fulfilled "<p>Ada</p>";
              json := Rejected (Js.JsError "SyntaxError" "Unexpected token <") |}
           "<p>Ada</p>");
    reflexivity.
Defined.

(** X6. When the preview request fails, or the text of its response cannot
    be read, [info] rejects without a reason (the cause is dropped) and
    leaves the container's content as it was. *)
Theorem info_transport_failure (net : Network) (c : Reconciliation.Service)
    (config : Manifest) (t : Template) (id : string) (w : World) (r : Js.reason) :
  JsString.truthy id = true ->
  Reconciliation.ReconcConfig c = Some config ->
  preview config = Some t ->
  net (preview_url c t id) None = Rejected r
  \/ (exists response : Response,
         net (preview_url c t id) None = Fulfilled response
         /\ text response = Rejected r) ->
  Reconciliation.info net c id w
  = ({| innerHTML := innerHTML w;
        calls := calls w ++ [EvFetch (preview_url c t id) None] |},
     Rejected Js.NoReason).
Proof.
  intros Hid Hc Hp Hfail.
  unfold Reconciliation.info. rewrite Hid, Hc, Hp. simpl.
  unfold_M. simpl. fold (preview_url c t id).
  destruct Hfail as [Hnet | [response [Hnet Htext]]].
  - rewrite Hnet. reflexivity.
  - rewrite Hnet, Htext. reflexivity.
Qed.

Lemma info_transport_failure_witness :
  Reconciliation.info unreachable gnd_previews "gnd-1185"
    {| innerHTML := "<p>old</p>"; calls := [] |}
  = ({| innerHTML := "<p>old</p>";
        calls := [EvFetch "https://example.org/preview?id=1185" None] |},
     Rejected Js.NoReason).
Proof.
  apply (info_transport_failure unreachable gnd_previews
           (Reconciliation.normalizeManifest Semver.valid
              {| versions := Some ["0.3-alpha"; "0.1"];
                 preview := Some {| url := "https://example.org/preview?id={{id}}" |};
                 view := None |})
           {| url := "https://example.org/preview?id={{id}}" |}
           "gnd-1185" {| innerHTML := "<p>old</p>"; calls := [] |}
           (Js.type_error "Failed to fetch")).
  - reflexivity.
  - reflexivity.
  - reflexivity.
  - left. reflexivity.
Defined.

(** ** The reconciliation connector before its manifest has arrived *)

(** X7. Between construction and the arrival of the manifest the connector
    has neither manifest nor version. In that window [query(key)] sends the
    legacy request; an answer without candidates gives the empty result,
    while an answer with at least one candidate makes the promise reject
    with a [TypeError] (the view template is looked up in a manifest that is
    not there). *)
Theorem before_manifest (net : Network) (c : Reconciliation.Service)
    (key : string) (w : World) (response : Response) (cands : list Candidate) :
  Reconciliation.ReconcConfig c = None ->
  Reconciliation.reconcVersion c = None ->
  net (Reconciliation.endpoint c) (Some (Reconciliation.qRequestInit None key))
  = Fulfilled response ->
  json response = Fulfilled (Legacy (Some (Some cands))) ->
  snd (Reconciliation.query net c key w)
  = match cands with
    | [] => Fulfilled {| Result.totalItems := 0; Result.items := [] |}
    | _ :: _ =>
        Rejected (Js.type_error
                    "Cannot read properties of undefined (reading 'view')")
    end.
Proof.
  intros Hc Hv Hnet Hjson.
  unfold Reconciliation.query, Reconciliation.query_init.
  rewrite Hv. simpl. rewrite !andb_false_r. unfold_M. simpl.
  rewrite Hnet, Hjson. unfold Reconciliation._parseResponse. simpl.
  destruct cands as [|item rest]; [reflexivity|].
  simpl. unfold Reconciliation.record_of, Reconciliation.view_of.
  rewrite Hc. reflexivity.
Qed.

Lemma before_manifest_witness :
  snd (Reconciliation.query (answering [person_X]) people "Ada" quiet)
  = Rejected (Js.type_error "Cannot read properties of undefined (reading 'view')")
  /\ snd (Reconciliation.query (answering []) people "Ada" quiet)
     = Fulfilled {| Result.totalItems := 0; Result.items := [] |}.
Proof.
  split.
  - apply (before_manifest (answering [person_X]) people "Ada" quiet
             {| ok := true; status := 200;
                text := Rejected (Js.type_error "body stream already read");
                json := Fulfilled (Legacy (Some (Some [person_X]))) |}
             [person_X] eq_refl eq_refl eq_refl eq_refl).
  - apply (before_manifest (answering []) people "Ada" quiet
             {| ok := true; status := 200;
                text := Rejected (Js.type_error "body stream already read");
                json := Fulfilled (Legacy (Some (Some []))) |}
             [] eq_refl eq_refl eq_refl eq_refl).
Defined.

(** ** The composite connector: further properties *)

(** X8. When the local register has the entry (its response is ok),
    [info(key, container)] writes the entry's details into the container and
    fulfils with the entry's id and strings and the connector's [editable]
    flag; no child connector is consulted, whatever children there are. *)
Theorem info_local_entry (net : Network) (c : Custom.Composite) (key : string)
    (w : World) (response : Response) (e : LocalItem) :
  JsString.truthy key = true ->
  net (Custom.entry_url c key) None = Fulfilled response ->
  ok response = true ->
  json response = Fulfilled (Entry e) ->
  Custom.info net c key w
  = ({| innerHTML := local_details e;
        calls := calls w ++ [EvFetch (Custom.entry_url c key) None] |},
     Fulfilled (VObj [("id", VStr (local_id e));
                      ("strings", local_strings e);
                      ("editable", VBool (Custom._editable c))])).
Proof.
  intros Hkey Hnet Hok Hjson.
  unfold Custom.info. rewrite Hkey. simpl.
  unfold_M. simpl. rewrite Hnet, Hok. simpl. rewrite Hjson. reflexivity.
Qed.

Lemma info_local_entry_witness :
  Custom.info (entry_answers local_1)
    (register_with [child_writes "<p>one</p>" "1"]) "1" quiet
  = ({| innerHTML := "local entry";
        calls := [EvFetch
                    (Custom.entry_url
                       (register_with [child_writes "<p>one</p>" "1"]) "1")
                    None] |},
     Fulfilled (VObj [("id", VStr "1"); ("strings", VArr [VStr "Ada"]);
                      ("editable", VBool true)])).
Proof.
  apply (info_local_entry (entry_answers local_1)
           (register_with [child_writes "<p>one</p>" "1"]) "1" quiet
           {| ok := true; status := 200;
              text := Rejected (Js.type_error "body stream already read");
              json := Fulfilled (Entry local_1) |}
           local_1);
    reflexivity.
Defined.

(** X9. When the local register answers with a failure other than 404,
    [info] rejects (without a reason) straight away: no child connector is
    consulted and the container keeps its content. *)
Theorem info_local_failure (net : Network) (c : Custom.Composite) (key : string)
    (w : World) (response : Response) :
  JsString.truthy key = true ->
  net (Custom.entry_url c key) None = Fulfilled response ->
  ok response = false ->
  status response <> 404%Z ->
  Custom.info net c key w
  = ({| innerHTML := innerHTML w;
        calls := calls w ++ [EvFetch (Custom.entry_url c key) None] |},
     Rejected Js.NoReason).
Proof.
  intros Hkey Hnet Hok Hstatus.
  unfold Custom.info. rewrite Hkey. simpl.
  unfold_M. simpl. rewrite Hnet, Hok.
  apply Z.eqb_neq in Hstatus. rewrite Hstatus. reflexivity.
Qed.

Lemma info_local_failure_witness :
  Custom.info server_error (register_with [child_writes "<p>one</p>" "1"]) "1"
    {| innerHTML := "<p>old</p>"; calls := [] |}
  = ({| innerHTML := "<p>old</p>";
        calls := [EvFetch
                    (Custom.entry_url
                       (register_with [child_writes "<p>one</p>" "1"]) "1")
                    None] |},
     Rejected Js.NoReason).
Proof.
  apply (info_local_failure server_error
           (register_with [child_writes "<p>one</p>" "1"]) "1"
           {| innerHTML := "<p>old</p>"; calls := [] |}
           {| ok := false; status := 500;
              text := Fulfilled "Internal Server Error";
              json := Rejected (Js.JsError "SyntaxError" "Unexpected token I") |}).
  - reflexivity.
  - reflexivity.
  - reflexivity.
  - simpl. lia.
Defined.

(** X10. For a key the percent-encoding accepts (every key of this
    development: code units below 256, hence no unpaired surrogate), the
    promise of [query] is never rejected: on every network and for every
    list of children it either fulfils or stays pending, because the promise
    is built with a [resolve] callback only and every failure after the
    search URL has been built happens in a callback of the request. *)
Theorem query_never_rejects (net : Network) (c : Custom.Composite)
    (key : string) (w : World) :
  is_rejected (snd (Custom.query net c key w)) = false.
Proof.
  unfold Custom.query. unfold_M. simpl.
  destruct (net (Custom.search_url c key) None) as [response| r |];
    try reflexivity.
  destruct (json response) as [payload| r |]; try reflexivity.
  destruct payload; try reflexivity.
  destruct (Custom.collect_local c items) as [results localResults].
  match goal with
  | |- context [Custom.query_connectors ?k ?s ?i ?cs ?rs ?t ?w0] =>
      destruct (Custom.query_connectors k s i cs rs t w0)
        as [w' [[rs' total]| r |]]
  end; reflexivity.
Qed.

(** X11. When the search in the local register fails, or its response is
    not JSON, [query] never settles, and no child connector is asked. *)
Theorem query_pending_when_local_fails (net : Network) (c : Custom.Composite)
    (key : string) (w : World) (r : Js.reason) :
  net (Custom.search_url c key) None = Rejected r
  \/ (exists response : Response,
         net (Custom.search_url c key) None = Fulfilled response
         /\ json response = Rejected r) ->
  Custom.query net c key w
  = ({| innerHTML := innerHTML w;
        calls := calls w ++ [EvFetch (Custom.search_url c key) None] |},
     Pending).
Proof.
  intros Hfail. unfold Custom.query. unfold_M. simpl.
  destruct Hfail as [Hnet | [response [Hnet Hjson]]].
  - rewrite Hnet. reflexivity.
  - rewrite Hnet, Hjson. reflexivity.
Qed.

Lemma query_pending_when_local_fails_witness :
  Custom.query unreachable (register_with [child_1_2]) "Ada" quiet
  = ({| innerHTML := "";
        calls := [EvFetch (Custom.search_url (register_with [child_1_2]) "Ada")
                    None] |},
     Pending).
Proof.
  apply (query_pending_when_local_fails unreachable (register_with [child_1_2])
           "Ada" quiet (Js.type_error "Failed to fetch")).
  left. reflexivity.
Defined.





(** ** The connector variant that reads records from the view URL *)

Lemma assoc_set_field_eq (k : string) (x : value) (fields : list (string * value)) :
  Js.assoc k (Js.set_field k x fields) = x.
Proof.
  unfold Js.assoc. induction fields as [|[k' v] rest IH]; simpl.
  - now rewrite String.eqb_refl.
  - destruct (String.eqb k' k) eqn:E; simpl; rewrite E; [reflexivity | exact IH].
Qed.

Lemma assoc_set_field_ne (k k' : string) (x : value)
    (fields : list (string * value)) :
  k <> k' -> Js.assoc k' (Js.set_field k x fields) = Js.assoc k' fields.
Proof.
  intros Hne. unfold Js.assoc.
  induction fields as [|[k0 v] rest IH]; simpl.
  - apply String.eqb_neq in Hne. now rewrite Hne.
  - destruct (String.eqb k0 k) eqn:E; simpl.
    + apply String.eqb_eq in E. subst k0.
      apply String.eqb_neq in Hne. now rewrite Hne.
    + destruct (String.eqb k0 k'); [reflexivity | exact IH].
Qed.

(** X13. In the variant that reads records from the view URL, when the
    manifest has a view template and the document at the view URL with
    [.json] appended is a JSON object, [getRecord(key)] fulfils with a
    record that has every property of that object, except that [name] is
    the object's [prefLabel] and [link] is the view URL. The key goes into
    the URL with its prefix taken off and without percent-encoding. *)
Theorem view_record_fetched (net : Network) (c : Reconciliation.Service)
    (config : Manifest) (t : Template) (key : string) (w : World)
    (response : Response) (fields : list (string * value)) :
  Reconciliation.ReconcConfig c = Some config ->
  view config = Some t ->
  net (view_url c t key +:+ ".json") None = Fulfilled response ->
  ok response = true ->
  json response = Fulfilled (Raw (VObj fields)) ->
  exists record : value,
    ViewVariant.getRecord net c key w
    = ({| innerHTML := innerHTML w;
          calls := calls w ++ [EvFetch (view_url c t key +:+ ".json") None] |},
       Fulfilled record)
    /\ Js.get record (Js.Name "link") = Js.Ok (VStr (view_url c t key))
    /\ Js.get record (Js.Name "name") = Js.Ok (Js.assoc "prefLabel" fields)
    /\ (forall k : string,
          k <> "name" -> k <> "link" ->
          Js.get record (Js.Name k) = Js.Ok (Js.assoc k fields)).
Proof.
  intros Hc Hv Hnet Hok Hjson.
  unfold ViewVariant.getRecord. rewrite Hc, Hv. fold (view_url c t key).
  unfold_M. simpl. rewrite Hnet, Hok. simpl. rewrite Hjson. simpl.
  eexists. split; [reflexivity|]. simpl. repeat split.
  - now rewrite assoc_set_field_eq.
  - rewrite assoc_set_field_ne by discriminate.
    now rewrite assoc_set_field_eq.
  - intros k Hname Hlink.
    rewrite assoc_set_field_ne by congruence.
    now rewrite assoc_set_field_ne by congruence.
Qed.

Lemma view_record_fetched_witness :
  exists record : value,
    ViewVariant.getRecord
      (object_answers [("prefLabel", VStr "Ada"); ("name", VStr "old")])
      gnd_views "gnd-11 85" quiet
    = ({| innerHTML := "";
          calls := [EvFetch "https://example.org/entity/11 85.json" None] |},
       Fulfilled record)
    /\ Js.get record (Js.Name "link")
       = Js.Ok (VStr "https://example.org/entity/11 85")
    /\ Js.get record (Js.Name "name") = Js.Ok (VStr "Ada").
Proof.
  destruct (view_record_fetched
              (object_answers [("prefLabel", VStr "Ada"); ("name", VStr "old")])
              gnd_views
              {| versions := None; preview := None;
                 view := Some {| url := "https://example.org/entity/{{id}}" |} |}
              {| url := "https://example.org/entity/{{id}}" |}
              "gnd-11 85" quiet
              {| ok := true; status := 200;
                 text := Rejected (Js.type_error "body stream already read");
                 json := Fulfilled (Raw (VObj [("prefLabel", VStr "Ada");
                                               ("name", VStr "old")])) |}
              [("prefLabel", VStr "Ada"); ("name", VStr "old")]
              eq_refl eq_refl eq_refl eq_refl eq_refl)
    as [record [Hrun [Hlink [Hname _]]]].
  exists record. split; [exact Hrun | split; [exact Hlink | exact Hname]].
Defined.

(** X14. In that variant, once a manifest has arrived whose view template,
    if it has one, has a url, every failure of [getRecord] is a rejection
    without a reason. Without a view template the promise is rejected at
    once and no request is made. With one, a failed request, a response
    that is not ok, a body that is not JSON and a body that is [null] (the
    record cannot be built from it) each end, after the one request, in the
    same rejection: the cause is dropped. *)
Theorem view_record_failures_reasonless (net : Network)
    (c : Reconciliation.Service) (config : Manifest) (key : string) (w : World) :
  Reconciliation.ReconcConfig c = Some config ->
  (view config = None ->
   ViewVariant.getRecord net c key w = (w, Rejected Js.NoReason))
  /\ (forall (t : Template) (r : Js.reason),
        view config = Some t ->
        net (view_url c t key +:+ ".json") None = Rejected r
        \/ (exists response : Response,
               net (view_url c t key +:+ ".json") None = Fulfilled response
               /\ (ok response = false
                   \/ ok response = true /\ json response = Rejected r
                   \/ ok response = true
                      /\ json response = Fulfilled (Raw VNull))) ->
        ViewVariant.getRecord net c key w
        = (logged w [EvFetch (view_url c t key +:+ ".json") None],
           Rejected Js.NoReason)).
Proof.
  intros Hc. split.
  - intros Hv. unfold ViewVariant.getRecord. rewrite Hc, Hv. reflexivity.
  - intros t r Hv Hfail.
    unfold ViewVariant.getRecord, view_url in *. rewrite Hc, Hv.
    unfold_M. simpl.
    destruct Hfail
      as [Hnet | [response [Hnet [Hok | [[Hok Hjson] | [Hok Hjson]]]]]];
      rewrite Hnet; simpl; rewrite ?Hok; simpl; rewrite ?Hjson; reflexivity.
Qed.

Lemma view_record_failures_reasonless_witness :
  ViewVariant.getRecord server_error legacy_people "1185" quiet
  = (quiet, Rejected Js.NoReason)
  /\ ViewVariant.getRecord server_error gnd_views "gnd-1185" quiet
     = ({| innerHTML := "";
           calls := [EvFetch "https://example.org/entity/1185.json" None] |},
        Rejected Js.NoReason)
  /\ ViewVariant.getRecord unreachable gnd_views "gnd-1185" quiet
     = ({| innerHTML := "";
           calls := [EvFetch "https://example.org/entity/1185.json" None] |},
        Rejected Js.NoReason)
  /\ ViewVariant.getRecord (text_answers "<p>Ada</p>") gnd_views "gnd-1185" quiet
     = ({| innerHTML := "";
           calls := [EvFetch "https://example.org/entity/1185.json" None] |},
        Rejected Js.NoReason).
Proof.
  split; [|split; [|split]].
  - apply (proj1 (view_record_failures_reasonless server_error legacy_people
                    {| versions := None; preview := None; view := None |}
                    "1185" quiet eq_refl)).
    reflexivity.
  - apply (proj2 (view_record_failures_reasonless server_error gnd_views
                    {| versions := None; preview := None;
                       view := Some {| url := "https://example.org/entity/{{id}}" |} |}
                    "gnd-1185" quiet eq_refl)
             {| url := "https://example.org/entity/{{id}}" |}
             Js.NoReason eq_refl).
    right. eexists. split; [reflexivity|]. left. reflexivity.
  - apply (proj2 (view_record_failures_reasonless unreachable gnd_views
                    {| versions := None; preview := None;
                       view := Some {| url := "https://example.org/entity/{{id}}" |} |}
                    "gnd-1185" quiet eq_refl)
             {| url := "https://example.org/entity/{{id}}" |}
             (Js.type_error "Failed to fetch") eq_refl).
    left. reflexivity.
  - apply (proj2 (view_record_failures_reasonless (text_answers "<p>Ada</p>")
                    gnd_views
                    {| versions := None; preview := None;
                       view := Some {| url := "https://example.org/entity/{{id}}" |} |}
                    "gnd-1185" quiet eq_refl)
             {| url := "https://example.org/entity/{{id}}" |}
             (Js.JsError "SyntaxError" "Unexpected token <") eq_refl).
    right. eexists. split; [reflexivity|]. right. left. split; reflexivity.
Defined.

(** ** The Metagrid connector *)

Lemma strip_punctuation_kept (key : string) :
  forallb Metagrid.kept (list_ascii_of_string (Metagrid.strip_punctuation key))
  = true.
Proof.
  induction key as [|a key IH]; simpl; [reflexivity|].
  destruct (Metagrid.kept a) eqn:E; simpl; [rewrite E|]; exact IH.
Qed.

Lemma strip_punctuation_clean (key : string) :
  forallb Metagrid.kept (list_ascii_of_string key) = true ->
  Metagrid.strip_punctuation key = key.
Proof.
  induction key as [|a key IH]; simpl; [reflexivity|].
  intros H. apply andb_true_iff in H as [Ha Hkey].
  rewrite Ha, (IH Hkey). reflexivity.
Qed.

(** Whatever happens after the request, [query] leaves the container alone
    and makes no further call. *)
Lemma metagrid_query_world (net : Network) (c : Metagrid.Service) (key : string)
    (w : World) :
  fst (Metagrid.query net c key w)
  = logged w [EvFetch (Metagrid.search_url key) None].
Proof.
  unfold Metagrid.query. unfold_M. unfold_M. simpl.
  destruct (net (Metagrid.search_url key) None) as [response| r |];
    try reflexivity.
  destruct (json response) as [payload| r |]; try reflexivity.
  destruct (Metagrid.resources_of _) as [resources|]; try reflexivity.
  destruct (Metagrid.records_of c resources); try reflexivity.
  destruct (Js.get (ViewVariant.Payload_value payload) (Js.Name "meta"))
    as [meta|]; try reflexivity.
  destruct (Js.get meta (Js.Name "total")); reflexivity.
Qed.

(** X15. [query(key)] searches for the key without its punctuation: it
    makes exactly one call, to the search URL with the percent-encoded key
    from which every character that is neither a word character nor white
    space has been removed; what is left has only such characters, removing
    again changes nothing, and a key without punctuation is searched as it
    is. *)
Theorem metagrid_query_strips_punctuation (net : Network)
    (c : Metagrid.Service) (key : string) (w : World) :
  fst (Metagrid.query net c key w)
  = {| innerHTML := innerHTML w;
       calls := calls w
                ++ [EvFetch ("https://api.metagrid.ch/search?query="
                             +:+ JsString.encodeURIComponent
                                   (Metagrid.strip_punctuation key)) None] |}
  /\ forallb Metagrid.kept
       (list_ascii_of_string (Metagrid.strip_punctuation key)) = true
  /\ Metagrid.strip_punctuation (Metagrid.strip_punctuation key)
     = Metagrid.strip_punctuation key
  /\ (forallb Metagrid.kept (list_ascii_of_string key) = true ->
      Metagrid.strip_punctuation key = key).
Proof.
  split; [apply metagrid_query_world|].
  split; [apply strip_punctuation_kept|].
  split; [|apply strip_punctuation_clean].
  apply strip_punctuation_clean, strip_punctuation_kept.
Qed.

Lemma records_of_resources (c : Metagrid.Service) (rs : list Resource) :
  Metagrid.records_of c (List.map resource_value rs)
  = Js.Ok (List.map (resource_record c) rs).
Proof.
  induction rs as [|r rs IH]; simpl; [reflexivity|].
  rewrite IH. reflexivity.
Qed.

(** X16. When Metagrid answers with a JSON object whose [resources] are
    well-formed and whose [meta] is an object, [query] fulfils with one
    record per resource, in order, with the id [slug-identifier], the label
    made of first and last name and the details made of the two dates;
    [totalItems] is the [total] the answer's [meta] reports, whatever the
    number of resources. *)
Theorem metagrid_query_result (net : Network) (c : Metagrid.Service)
    (key : string) (w : World) (response : Response)
    (fields meta : list (string * value)) (rs : list Resource) :
  net (Metagrid.search_url key) None = Fulfilled response ->
  json response = Fulfilled (Raw (VObj fields)) ->
  Js.assoc "resources" fields = VArr (List.map resource_value rs) ->
  Js.assoc "meta" fields = VObj meta ->
  snd (Metagrid.query net c key w)
  = Fulfilled {| Metagrid.totalItems := Js.assoc "total" meta;
                 Metagrid.items := List.map (resource_record c) rs |}.
Proof.
  intros Hnet Hjson Hres Hmeta.
  unfold Metagrid.query. unfold_M. unfold_M. simpl. rewrite Hnet, Hjson. simpl.
  unfold Metagrid.resources_of. simpl. rewrite Hres.
  rewrite records_of_resources. simpl. rewrite Hmeta. reflexivity.
Qed.

Lemma metagrid_query_result_witness :
  snd (Metagrid.query metagrid_answers metagrid_people "Lovelace, Ada" quiet)
  = Fulfilled {| Metagrid.totalItems := VNum 57;
                 Metagrid.items := [resource_record metagrid_people lovelace] |}.
Proof.
  apply (metagrid_query_result metagrid_answers metagrid_people "Lovelace, Ada"
           quiet
           {| ok := true; status := 200;
              text := Rejected (Js.type_error "body stream already read");
              json := Fulfilled
                        (Raw (VObj [("meta", VObj [("total", VNum 57)]);
                                    ("resources",
                                     VArr [resource_value lovelace])])) |}
           [("meta", VObj [("total", VNum 57)]);
            ("resources", VArr [resource_value lovelace])]
           [("total", VNum 57)] [lovelace]);
    reflexivity.
Defined.

Lemma indexOf_no_dash (s : string) :
  no_dash s = true -> Metagrid.indexOf "-" s = None.
Proof.
  unfold no_dash. induction s as [|a s IH]; simpl; [reflexivity|].
  intros H. apply andb_true_iff in H as [Ha Hs].
  apply negb_true_iff in Ha. rewrite Ha, (IH Hs). reflexivity.
Qed.

Lemma indexOf_first_dash (s rest : string) :
  no_dash s = true ->
  Metagrid.indexOf "-" (s +:+ "-" +:+ rest) = Some (String.length s).
Proof.
  change ("-" +:+ rest) with (String "-" rest).
  unfold no_dash. induction s as [|a s IH]; simpl; intros H.
  - reflexivity.
  - apply andb_true_iff in H as [Ha Hs]. apply negb_true_iff in Ha.
    rewrite ?app_String. cbn [Metagrid.indexOf]. rewrite Ha, (IH Hs).
    reflexivity.
Qed.

Lemma first_units_app (s rest : string) :
  Metagrid.first_units (String.length s) (s +:+ rest) = s.
Proof.
  induction s as [|a s IH].
  - destruct rest; reflexivity.
  - rewrite app_String. simpl. now rewrite IH.
Qed.

(** The calls of [info]: the request, whatever comes of it. *)
Lemma metagrid_info_calls (net : Network) (c : Metagrid.Service) (key : string)
    (w : World) :
  calls (fst (Metagrid.info net c key w))
  = calls w ++ [EvFetch (Metagrid.info_url key) None].
Proof.
  unfold Metagrid.info. unfold_M. unfold_M. simpl.
  destruct (net (Metagrid.info_url key) None) as [response| r |];
    try reflexivity.
  destruct (json response) as [payload| r |]; try reflexivity.
  destruct (Metagrid.preview_of _) as [[item output]|]; try reflexivity.
  simpl. destruct (Metagrid.descriptor_of key item); reflexivity.
Qed.

(** X17. [info(key, container)] cuts the key at its first dash: the request
    asks for the slug before the dash and, as query, for the rest of the
    key with the dash still in front; neither part is percent-encoded. For
    a key without a dash the slug is empty and the query is the whole
    key. *)
Theorem metagrid_info_splits_key (net : Network) (c : Metagrid.Service)
    (slug rest : string) (w : World) :
  no_dash slug = true ->
  calls (fst (Metagrid.info net c (slug +:+ "-" +:+ rest) w))
  = calls w
    ++ [EvFetch ("https://api.metagrid.ch/search?slug=" +:+ slug
                 +:+ "&query=" +:+ "-" +:+ rest) None]
  /\ calls (fst (Metagrid.info net c slug w))
     = calls w
       ++ [EvFetch ("https://api.metagrid.ch/search?slug=" +:+ ""
                    +:+ "&query=" +:+ slug) None].
Proof.
  intros Hslug. rewrite !metagrid_info_calls.
  unfold Metagrid.info_url, Metagrid.slug_of, Metagrid.id_of.
  rewrite (indexOf_first_dash slug rest Hslug), (indexOf_no_dash slug Hslug).
  rewrite first_units_app, substring_from_app.
  split; reflexivity.
Qed.

Lemma metagrid_info_splits_key_witness :
  calls (fst (Metagrid.info unreachable metagrid_people "dodis-P-42" quiet))
  = [EvFetch "https://api.metagrid.ch/search?slug=dodis&query=-P-42" None]
  /\ calls (fst (Metagrid.info unreachable metagrid_people "dodis" quiet))
     = [EvFetch "https://api.metagrid.ch/search?slug=&query=dodis" None].
Proof.
  apply (metagrid_info_splits_key unreachable metagrid_people "dodis" "P-42" quiet).
  reflexivity.
Defined.

(** X18. Neither [query] nor [info] of the Metagrid connector ever rejects:
    on every network each of them either fulfils or stays pending, since
    both promises are built with a [resolve] callback only. In particular,
    when the request fails, when the body of the answer is not JSON and
    when the answer is an object without resources, the promise stays
    pending after the one request, and the container is left as it was. *)
Theorem metagrid_never_rejects (net : Network) (c : Metagrid.Service)
    (key : string) (w : World) :
  (is_rejected (snd (Metagrid.query net c key w)) = false
   /\ is_rejected (snd (Metagrid.info net c key w)) = false)
  /\ (no_resources (net (Metagrid.search_url key) None) ->
      Metagrid.query net c key w
      = (logged w [EvFetch (Metagrid.search_url key) None], Pending))
  /\ (no_resources (net (Metagrid.info_url key) None) ->
      Metagrid.info net c key w
      = (logged w [EvFetch (Metagrid.info_url key) None], Pending)).
Proof.
  split; [split|split].
  - unfold Metagrid.query. unfold_M. unfold_M. simpl.
    destruct (net (Metagrid.search_url key) None) as [response| r |];
      try reflexivity.
    destruct (json response) as [payload| r |]; try reflexivity.
    destruct (Metagrid.resources_of _) as [resources|]; try reflexivity.
    destruct (Metagrid.records_of c resources); try reflexivity.
    destruct (Js.get (ViewVariant.Payload_value payload) (Js.Name "meta"))
      as [meta|]; try reflexivity.
    destruct (Js.get meta (Js.Name "total")); reflexivity.
  - unfold Metagrid.info. unfold_M. unfold_M. simpl.
    destruct (net (Metagrid.info_url key) None) as [response| r |];
      try reflexivity.
    destruct (json response) as [payload| r |]; try reflexivity.
    destruct (Metagrid.preview_of _) as [[item output]|]; try reflexivity.
    simpl. destruct (Metagrid.descriptor_of key item); reflexivity.
  - intros Hfail. unfold Metagrid.query, logged. unfold_M. unfold_M. simpl.
    destruct Hfail
      as [[r Hnet] | [response [Hnet [[r Hjson] | [fields [Hjson Hres]]]]]];
      rewrite Hnet; simpl; rewrite ?Hjson; simpl; try reflexivity.
    unfold Metagrid.resources_of. simpl. rewrite Hres. reflexivity.
  - intros Hfail. unfold Metagrid.info, logged. unfold_M. unfold_M. simpl.
    destruct Hfail
      as [[r Hnet] | [response [Hnet [[r Hjson] | [fields [Hjson Hres]]]]]];
      rewrite Hnet; simpl; rewrite ?Hjson; simpl; try reflexivity.
    unfold Metagrid.preview_of. simpl. rewrite Hres. reflexivity.
Qed.

Lemma metagrid_never_rejects_witness :
  Metagrid.query unreachable metagrid_people "Lovelace, Ada" quiet
  = ({| innerHTML := "";
        calls := [EvFetch "https://api.metagrid.ch/search?query=Lovelace%20Ada"
                    None] |},
     Pending)
  /\ Metagrid.info (text_answers "<p>Ada</p>") metagrid_people "dodis-P42" quiet
     = ({| innerHTML := "";
           calls := [EvFetch "https://api.metagrid.ch/search?slug=dodis&query=-P42"
                       None] |},
        Pending)
  /\ Metagrid.info (object_answers [("meta", VObj [("total", VNum 0)])])
       metagrid_people "dodis-P42" quiet
     = ({| innerHTML := "";
           calls := [EvFetch "https://api.metagrid.ch/search?slug=dodis&query=-P42"
                       None] |},
        Pending).
Proof.
  split; [|split].
  - apply (proj1 (proj2 (metagrid_never_rejects unreachable metagrid_people
                           "Lovelace, Ada" quiet))).
    left. eexists. reflexivity.
  - apply (proj2 (proj2 (metagrid_never_rejects (text_answers "<p>Ada</p>")
                           metagrid_people "dodis-P42" quiet))).
    right. eexists. split; [reflexivity|]. left. eexists. reflexivity.
  - apply (proj2 (proj2 (metagrid_never_rejects
                           (object_answers [("meta", VObj [("total", VNum 0)])])
                           metagrid_people "dodis-P42" quiet))).
    right. eexists. split; [reflexivity|]. right.
    exists [("meta", VObj [("total", VNum 0)])]. split; reflexivity.
Defined.

(** X19. When Metagrid answers with a JSON object whose first resource is
    well-formed, [info(key, container)] writes the markup for that resource
    (link, name and dates) into the container and fulfils with a descriptor
    whose id is the slug cut from the key, a dash, and the identifier of
    that first resource, and whose strings are the resource's name; the
    resources after the first are not looked at. *)
Theorem metagrid_info_first_resource (net : Network) (c : Metagrid.Service)
    (key : string) (w : World) (response : Response)
    (fields : list (string * value)) (r : Resource) (others : list value) :
  net (Metagrid.info_url key) None = Fulfilled response ->
  json response = Fulfilled (Raw (VObj fields)) ->
  Js.assoc "resources" fields = VArr (resource_value r :: others) ->
  Metagrid.info net c key w
  = ({| innerHTML :=
          Metagrid.output_of (VStr (res_uri r))
            (VStr (res_first_name r)) (VStr (res_last_name r))
            (VStr (res_birth_date r)) (VStr (res_death_date r));
        calls := calls w ++ [EvFetch (Metagrid.info_url key) None] |},
     Fulfilled
       (VObj [("id", VStr (Metagrid.slug_of key +:+ "-" +:+ res_identifier r));
              ("strings",
               VArr [VStr (res_first_name r +:+ " " +:+ res_last_name r)])])).
Proof.
  intros Hnet Hjson Hres.
  unfold Metagrid.info. unfold_M. unfold_M. simpl. rewrite Hnet, Hjson. simpl.
  unfold Metagrid.preview_of. simpl. rewrite Hres. reflexivity.
Qed.

Lemma metagrid_info_first_resource_witness :
  snd (Metagrid.info metagrid_answers metagrid_people "dodis-P42" quiet)
  = Fulfilled (VObj [("id", VStr "dodis-P42");
                     ("strings", VArr [VStr "Ada Lovelace"])])
  /\ JsString.includes "Ada Lovelace"
       (innerHTML (fst (Metagrid.info metagrid_answers metagrid_people
                          "dodis-P42" quiet))) = true.
Proof.
  rewrite (metagrid_info_first_resource metagrid_answers metagrid_people
             "dodis-P42" quiet
             {| ok := true; status := 200;
                text := Rejected (Js.type_error "body stream already read");
                json := Fulfilled
                          (Raw (VObj [("meta", VObj [("total", VNum 57)]);
                                      ("resources",
                                       VArr [resource_value lovelace])])) |}
             [("meta", VObj [("total", VNum 57)]);
              ("resources", VArr [resource_value lovelace])]
             lovelace [] eq_refl eq_refl eq_refl).
  split; reflexivity.
Defined.
